(** * lcdb-wf reference configuration: [common.py]

    A shallow embedding of [config_to_dict] (the path table built from the
    reference configuration) and of [download_and_postprocess] (download to
    temporary files, postprocess, clean up), with the properties of the
    specification stated and proved over it.

    Conventions of the embedding.
    - A configuration is the YAML document after loading.  The schema's
      required string fields ([assembly], [type], [url]) are total record
      fields; optional keys are [option]s, [None] meaning "key absent".
    - The [postprocess] value is kept as an untyped YAML value ([pyval]),
      because the code dispatches on its run-time type.
    - Python exceptions are values of [exn]; a computation that may raise
      returns a [result].  Code that also touches the file system is a
      state-and-error computation [M A] over the set of existing paths.
    - Python dictionaries are [gmap]s.
    - [config_to_dict] is modelled on a configuration that is already a
      mapping; loading it from a YAML file when a file name is given is
      input/output and outside the model. *)

From Stdlib Require Import Ascii DecimalString DecimalNat.
From stdpp Require Import gmap strings list fin_maps.

#[local] Set Warnings "-clear-no-such-hyp".

Open Scope string_scope.

(** ** Values, exceptions, results *)

(** YAML values as Python sees them after loading, plus tuples, which the
    code itself creates ([()], [(args,)], [(assembly, tag)]). *)
#[local] Unset Elimination Schemes.
Inductive pyval : Type :=
  | PNone
  | PInt (z : Z)
  | PStr (s : string)
  | PList (l : list pyval)
  | PTuple (l : list pyval)
  | PDict (kvs : list (string * pyval)).
#[local] Set Elimination Schemes.

(** The command lines the module hands to [shell], by their operands:
    [wget {url} -O- > {tmpfile} 2> {outfile}.log], [mv {origfn} {newfn}],
    [rm {i}] and [cat {tmpfiles} > {outfile}]. *)
Inductive command : Type :=
  | Wget (url tmpfile log : string)
  | Mv (origfn : list string) (newfn : string)
  | Rm (i : string)
  | Cat (tmpfiles : list string) (outfile : string).

(** A list in a command line: [snakemake] joins its elements by spaces. *)
Fixpoint join_space (l : list string) : string :=
  match l with
  | [] => ""
  | [x] => x
  | x :: rest => x +:+ " " +:+ join_space rest
  end.

(** The command line after formatting, as written in the source; the
    operands are pasted in as they are, without quoting. *)
Definition command_line (c : command) : string :=
  match c with
  | Wget url tmpfile log =>
      "wget " +:+ url +:+ " -O- > " +:+ tmpfile +:+ " 2> " +:+ log
  | Mv origfn newfn => "mv " +:+ join_space origfn +:+ " " +:+ newfn
  | Rm i => "rm " +:+ i
  | Cat tmpfiles outfile => "cat " +:+ join_space tmpfiles +:+ " > " +:+ outfile
  end.

(** Python exceptions.  [CalledProcessError] carries the command whose exit
    status was not zero; the text of its [cmd] attribute, which [snakemake]
    composes from the command line and a prefix of its own, and the return
    code are not modelled. *)
Inductive exn : Type :=
  | ValueError (msg : string)
  | KeyError (key : pyval)
  | TypeError (msg : string)
  | UnboundLocalError (name : string)
  | CalledProcessError (cmd : command)
  | Exception (cls msg : string).

Inductive result (A : Type) : Type :=
  | Ok (a : A)
  | Raise (e : exn).
Arguments Ok {A} a.
Arguments Raise {A} e.

Definition rbind {A B} (r : result A) (k : A → result B) : result B :=
  match r with
  | Ok a => k a
  | Raise e => Raise e
  end.

Declare Scope py_scope.
Delimit Scope py_scope with py.
Notation "x <~ r ;; k" := (rbind r (fun x => k))
  (at level 100, r at next level, right associativity) : py_scope.
Open Scope py_scope.

(** [dict.get(key)] on a YAML mapping. *)
Fixpoint dict_get (key : string) (kvs : list (string * pyval)) : option pyval :=
  match kvs with
  | [] => None
  | (k, v) :: rest => if String.eqb k key then Some v else dict_get key rest
  end.

(** ** Configuration *)

(** The [url] of a block: a bare string or a list of strings. *)
Inductive url_spec : Type :=
  | UrlStr (u : string)
  | UrlList (us : list string).

Record block : Type := Block {
  b_assembly : string;
  b_tag : option string;
  b_type : string;
  b_url : url_spec;
  b_indexes : option (list string);
  b_conversions : option (list string);
  b_postprocess : option pyval;
}.

Record config : Type := Config {
  c_references_dir : option string;
  c_references : list block;
}.

(** [block.get('tag', 'default')] *)
Definition fill_tag (b : block) : string := default "default" (b_tag b).

(** A cell of the path table: artifact kind to path. *)
Abbreviation cell := (gmap string string).
(** The path table: assembly to tag to cell. *)
Abbreviation table := (gmap string (gmap string (gmap string string))).

(** ** [config_to_dict] *)

Section PathResolver.

(** [aligners.bowtie2_index_from_prefix('')[0]] and
    [aligners.hisat2_index_from_prefix('')[0]] come from [lcdblib], which
    is not part of this repository: the two suffixes are parameters. *)
Variable bowtie2_suffix : string.
Variable hisat2_suffix : string.

Definition index_extensions : gmap string string :=
  <["bowtie2" := bowtie2_suffix]>
    (<["hisat2" := hisat2_suffix]>
       (<["kallisto" := ".idx"]> ∅)).

Definition conversion_extensions : gmap string string :=
  <["intergenic" := ".intergenic.gtf"]>
    (<["refflat" := ".refflat"]> ∅).

(** ['{references_dir}/{assembly}/{type_}/{assembly}_{tag}.{type_}'] *)
Definition type_path (references_dir assembly tag type_ : string) : string :=
  references_dir +:+ "/" +:+ assembly +:+ "/" +:+ type_ +:+ "/"
    +:+ assembly +:+ "_" +:+ tag +:+ "." +:+ type_.

(** ['{references_dir}/{assembly}/{type_}/{assembly}_{tag}{ext}'] *)
Definition conversion_path (references_dir assembly tag type_ ext : string)
  : string :=
  references_dir +:+ "/" +:+ assembly +:+ "/" +:+ type_ +:+ "/"
    +:+ assembly +:+ "_" +:+ tag +:+ ext.

(** ['{references_dir}/{assembly}/{index}/{assembly}_{tag}{ext}'] *)
Definition index_path (references_dir assembly tag index ext : string)
  : string :=
  references_dir +:+ "/" +:+ assembly +:+ "/" +:+ index +:+ "/"
    +:+ assembly +:+ "_" +:+ tag +:+ ext.

(** ['{references_dir}/{assembly}/{type_}/{assembly}_{tag}.chromsizes'] *)
Definition chromsizes_path (references_dir assembly tag type_ : string)
  : string :=
  references_dir +:+ "/" +:+ assembly +:+ "/" +:+ type_ +:+ "/"
    +:+ assembly +:+ "_" +:+ tag +:+ ".chromsizes".

(** The message of the duplicate error of [config_to_dict]. *)
Definition exists_msg (tag type_ assembly : string) : string :=
  "tag " +:+ tag +:+ " already exists for type " +:+ type_
    +:+ " in assembly " +:+ assembly.

(** [for conversion in conversions: ext = conversion_extensions[conversion];
    e[conversion] = ...] *)
Fixpoint add_conversions (references_dir assembly tag type_ : string)
    (conversions : list string) (e : cell) : result cell :=
  match conversions with
  | [] => Ok e
  | conversion :: rest =>
      match conversion_extensions !! conversion with
      | None => Raise (KeyError (PStr conversion))
      | Some ext =>
          add_conversions references_dir assembly tag type_ rest
            (<[conversion :=
                 conversion_path references_dir assembly tag type_ ext]> e)
      end
  end.

(** [for index in indexes: ext = index_extensions[index]; e[index] = ...] *)
Fixpoint add_indexes (references_dir assembly tag : string)
    (indexes : list string) (e : cell) : result cell :=
  match indexes with
  | [] => Ok e
  | index :: rest =>
      match index_extensions !! index with
      | None => Raise (KeyError (PStr index))
      | Some ext =>
          add_indexes references_dir assembly tag rest
            (<[index := index_path references_dir assembly tag index ext]> e)
      end
  end.

(** Lines 226 to 261: what one block writes into its cell [e]. *)
Definition cell_entries (references_dir : string) (b : block) (e : cell)
  : result cell :=
  let assembly := b_assembly b in
  let tag := fill_tag b in
  let type_ := b_type b in
  let e := <[type_ := type_path references_dir assembly tag type_]> e in
  e <~ (if decide (type_ = "gtf") then
          add_conversions references_dir assembly tag type_
            (default [] (b_conversions b)) e
        else Ok e) ;;
  e <~ (if decide (type_ = "fasta") then
          e <~ add_indexes references_dir assembly tag
                 (default [] (b_indexes b)) e ;;
          Ok (<["chromsizes" :=
                  chromsizes_path references_dir assembly tag type_]> e)
        else Ok e) ;;
  Ok e.

(** The body of the loop over [config['references']]: one block, the table
    so far, and the table after it (or the exception raised). *)
Definition process_block (references_dir : string) (d : table) (b : block)
  : result table :=
  let assembly := b_assembly b in
  let tag := fill_tag b in
  let type_ := b_type b in
  let d := if decide (is_Some (d !! assembly)) then d
           else <[assembly := ∅]> d in
  let e := default ∅ (default ∅ (d !! assembly) !! tag) in
  if decide (is_Some (e !! type_)) then
    Raise (ValueError (exists_msg tag type_ assembly))
  else
    let e := <[type_ := type_path references_dir assembly tag type_]> e in
    e <~ (if decide (type_ = "gtf") then
            add_conversions references_dir assembly tag type_
              (default [] (b_conversions b)) e
          else Ok e) ;;
    e <~ (if decide (type_ = "fasta") then
            e <~ add_indexes references_dir assembly tag
                   (default [] (b_indexes b)) e ;;
            Ok (<["chromsizes" :=
                    chromsizes_path references_dir assembly tag type_]> e)
          else Ok e) ;;
    Ok (<[assembly := <[tag := e]> (default ∅ (d !! assembly))]> d).

Fixpoint process_blocks (references_dir : string) (bs : list block)
    (d : table) : result table :=
  match bs with
  | [] => Ok d
  | b :: rest =>
      d <~ process_block references_dir d b ;;
      process_blocks references_dir rest d
  end.

(** [os.environ.get('REFERENCES_DIR', config.get('references_dir', None))] *)
Definition get_references_dir (environ : gmap string string) (cfg : config)
  : option string :=
  match environ !! "REFERENCES_DIR" with
  | Some r => Some r
  | None => c_references_dir cfg
  end.

Definition config_to_dict (environ : gmap string string) (cfg : config)
  : result table :=
  match get_references_dir environ cfg with
  | None => Raise (ValueError "References dir not set")
  | Some references_dir =>
      process_blocks references_dir (c_references cfg) ∅
  end.

End PathResolver.

(** ** Python string formatting used by the error messages *)

Definition hex_digit (n : nat) : string :=
  String.substring n 1 "0123456789abcdef".

(** One character of [repr(str)], for the quote character [q] in use.  A
    character of the model is a code point below U+0100; of these the
    control characters, the no-break space U+00A0 and the soft hyphen
    U+00AD are not printable and are written [\xNN].  Text with code points
    from U+0100 on is outside the model. *)
Definition repr_char (q c : ascii) : string :=
  let n := Ascii.nat_of_ascii c in
  if decide (n = 92) then "\\"
  else if decide (c = q) then String "\"%char (String q "")
  else if decide (n = 10) then "\n"
  else if decide (n = 13) then "\r"
  else if decide (n = 9) then "\t"
  else if decide (n < 32 ∨ (126 < n ∧ n < 161) ∨ n = 173) then
    "\x" +:+ hex_digit (n / 16) +:+ hex_digit (n mod 16)
  else String c "".

Fixpoint repr_chars (q : ascii) (s : string) : string :=
  match s with
  | EmptyString => ""
  | String c rest => repr_char q c +:+ repr_chars q rest
  end.

Fixpoint has_char (c : ascii) (s : string) : bool :=
  match s with
  | EmptyString => false
  | String c' rest => if decide (c = c') then true else has_char c rest
  end.

Definition squote : ascii := Ascii.ascii_of_nat 39.
Definition dquote : ascii := Ascii.ascii_of_nat 34.

(** [repr(s)] of a string: single quotes, unless the string has a single
    quote and no double quote. *)
Definition repr_str (s : string) : string :=
  let q := if has_char squote s && negb (has_char dquote s)
           then dquote else squote in
  String q (repr_chars q s +:+ String q "").

(** ["key {} already exists".format((assembly, tag))] *)
Definition key_exists_msg (assembly tag : string) : string :=
  "key (" +:+ repr_str assembly +:+ ", " +:+ repr_str tag
    +:+ ") already exists".

(** ** The file system and the shell *)

(** The file system, as far as the pipeline observes it: the set of paths
    that exist ([os.path.exists]). *)
Abbreviation FS := (gset string).

(** A computation that reads and changes the file system and may raise; the
    file system reached is kept when it raises. *)
Definition M (A : Type) : Type := FS → result A * FS.

Definition ret {A} (a : A) : M A := λ fs, (Ok a, fs).
Definition raise {A} (e : exn) : M A := λ fs, (Raise e, fs).
Definition lift {A} (r : result A) : M A := λ fs, (r, fs).
Definition bind {A B} (m : M A) (k : A → M B) : M B :=
  λ fs, match m fs with
        | (Ok a, fs') => k a fs'
        | (Raise e, fs') => (Raise e, fs')
        end.

Notation "x <- m ;; k" := (bind m (fun x => k))
  (at level 100, m at next level, right associativity) : py_scope.

(** A function usable as postprocessor: called as
    [func(tmpfiles, outfile, *args)]. *)
Definition postprocessor : Type :=
  list string → string → list pyval → M unit.

Section Pipeline.

(** The exit status of [wget] depends on the network: [wget_fails url]
    says whether the fetch of [url] ends with a non-zero status. *)
Variable wget_fails : string → bool.

(** [lcdblib.utils.imports.resolve_name], the run-time lookup of a
    function by its dotted name; not part of this repository. *)
Variable resolve_name : pyval → result postprocessor.

(** [snakemake.shell]: runs the command line in [bash] and raises
    [CalledProcessError] on a non-zero exit status.

    The model is the one of command lines whose operands are single shell
    words naming regular files in existing, writable directories: the source
    pastes paths and URLs into the command line unquoted, and what [bash]
    makes of an operand with a blank or a metacharacter, or of a directory
    where a file is meant, is outside it.  Statements that depend on what a
    command does to particular files carry these conditions as hypotheses
    ([plain_name], [url_word], [fresh_call]).
    - [wget ... > tmpfile 2> log]: the redirections create both files
      whatever [wget] does;
    - [mv src dst]: [src] must exist; it is renamed to [dst]; [mv] without a
      source, or with several sources and a target that is not a directory,
      fails;
    - [rm i]: [i] must exist; it is removed;
    - [cat tmpfiles > outfile]: the redirection creates [outfile] whatever
      [cat] does; [cat] fails when one of its operands does not exist;
      without operands it copies its standard input, taken to be at its
      end. *)
Definition shell (c : command) : M unit :=
  λ fs,
    match c with
    | Wget url tmpfile log =>
        let fs' := {[tmpfile]} ∪ ({[log]} ∪ fs) in
        if wget_fails url then (Raise (CalledProcessError c), fs')
        else (Ok (), fs')
    | Mv [src] dst =>
        if decide (src ∈ fs) then (Ok (), {[dst]} ∪ (fs ∖ {[src]}))
        else (Raise (CalledProcessError c), fs)
    | Mv _ _ => (Raise (CalledProcessError c), fs)
    | Rm i =>
        if decide (i ∈ fs) then (Ok (), fs ∖ {[i]})
        else (Raise (CalledProcessError c), fs)
    | Cat tmpfiles outfile =>
        let fs' := {[outfile]} ∪ fs in
        if decide (Forall (λ tmp, tmp ∈ fs') tmpfiles) then (Ok (), fs')
        else (Raise (CalledProcessError c), fs')
    end.

(** The [TypeError] of a call with [given] positional arguments of a
    function that takes two (CPython 3.10 and later name the function by
    its qualified name). *)
Definition arity_error (qualname : string) (given : nat) : exn :=
  TypeError (qualname +:+ "() takes 2 positional arguments but "
               +:+ NilEmpty.string_of_uint (Nat.to_uint given)
               +:+ " were given").

(** [def cat(tmpfiles, outfile): shell('cat {tmpfiles} > {outfile}')]; it
    takes no extra argument. *)
Definition cat : postprocessor :=
  λ tmpfiles outfile args,
    match args with
    | [] => shell (Cat tmpfiles outfile)
    | _ => raise (arity_error "cat" (2 + length args))
    end.

(** [os.path.exists(i)] *)
Definition path_exists (i : string) : M bool :=
  λ fs, (Ok (bool_decide (i ∈ fs)), fs).

(** The lookup keyed by [(assembly, tag)], lines 67 to 72. *)
Fixpoint build_lookup (refs : list block) (d : gmap (string * string) block)
  : result (gmap (string * string) block) :=
  match refs with
  | [] => Ok d
  | i :: rest =>
      let k := (b_assembly i, fill_tag i) in
      if decide (is_Some (d !! k)) then
        Raise (ValueError (key_exists_msg (b_assembly i) (fill_tag i)))
      else build_lookup rest (<[k := i]> d)
  end.

(** [def default_postprocess(origfn, newfn): shell("mv {origfn} {newfn}")];
    it takes no extra argument. *)
Definition default_postprocess : postprocessor :=
  λ origfn newfn args,
    match args with
    | [] => shell (Mv origfn newfn)
    | _ => raise (arity_error
                    "download_and_postprocess.<locals>.default_postprocess"
                    (2 + length args))
    end.

(** [base = os.path.relpath(outfile, config['references_dir'])]: the value
    is not used afterwards, the exceptions are. *)
Definition relpath_check (outfile : string) (cfg : config) : result unit :=
  match c_references_dir cfg with
  | None => Raise (KeyError (PStr "references_dir"))
  | Some _ =>
      if decide (outfile = "") then Raise (ValueError "no path specified")
      else Ok ()
  end.

(** Lines 88 to 104: which function, by name ([None] for the default
    one), and which extra arguments.  A value that is neither a mapping
    nor a string leaves [name] unbound. *)
Definition postprocess_spec (post_process : option pyval)
  : result (option pyval * pyval) :=
  match post_process with
  | None | Some PNone => Ok (None, PTuple [])
  | Some (PDict kvs) =>
      let name := default (PDict kvs) (dict_get "function" kvs) in
      let args := default (PTuple []) (dict_get "args" kvs) in
      let args := match args with
                  | PStr s => PTuple [PStr s]
                  | _ => args
                  end in
      Ok (Some name, args)
  | Some (PStr s) => Ok (Some (PStr s), PTuple [])
  | Some _ => Raise (UnboundLocalError "name")
  end.

(** [func = default_postprocess] or [func = resolve_name(name)]. *)
Definition resolve_func (name : option pyval) : result postprocessor :=
  match name with
  | None => Ok default_postprocess
  | Some name => resolve_name name
  end.

(** [urls = block['url']; if isinstance(urls, str): urls = [urls]] *)
Definition url_list (b : block) : list string :=
  match b_url b with
  | UrlStr u => [u]
  | UrlList us => us
  end.

(** ['{0}.{1}.tmp'.format(outfile, i)] *)
Definition tmpfile_name (outfile : string) (i : nat) : string :=
  outfile +:+ "." +:+ NilEmpty.string_of_uint (Nat.to_uint i) +:+ ".tmp".

Definition tmpfile_names (outfile : string) (n : nat) : list string :=
  tmpfile_name outfile <$> seq 0 n.

(** [for url, tmpfile in zip(urls, tmpfiles): shell("wget ...")] *)
Fixpoint download_all (outfile : string) (jobs : list (string * string))
  : M unit :=
  match jobs with
  | [] => ret ()
  | (url, tmpfile) :: rest =>
      _ <- shell (Wget url tmpfile (outfile +:+ ".log")) ;;
      download_all outfile rest
  end.

(** The unpacking [*args] of the call [func(tmpfiles, outfile, *args)];
    the message for a value that cannot be iterated is the one of CPython
    3.9 and later. *)
Definition star_args (args : pyval) : result (list pyval) :=
  match args with
  | PTuple l | PList l => Ok l
  | PDict kvs => Ok ((λ kv, PStr kv.1) <$> kvs)
  | PStr s => Ok ((λ c, PStr (String c "")) <$> String.list_ascii_of_string s)
  | PNone =>
      Raise (TypeError "Value after * must be an iterable, not NoneType")
  | PInt _ => Raise (TypeError "Value after * must be an iterable, not int")
  end.

(** [for i in tmpfiles: if os.path.exists(i): shell('rm {i}')] *)
Fixpoint cleanup (tmpfiles : list string) : M unit :=
  match tmpfiles with
  | [] => ret ()
  | i :: rest =>
      ex <- path_exists i ;;
      _ <- (if ex : bool then shell (Rm i) else ret ()) ;;
      cleanup rest
  end.

(** Lines 109 to 123: download every URL to its temporary file, call the
    function, remove the temporary files. *)
Definition fetch_and_run (outfile : string) (block : block)
    (func : postprocessor) (args : pyval) : M unit :=
  let urls := url_list block in
  let tmpfiles := tmpfile_names outfile (length urls) in
  _ <- download_all outfile (zip urls tmpfiles) ;;
  args <- lift (star_args args) ;;
  _ <- func tmpfiles outfile args ;;
  cleanup tmpfiles.

Definition download_and_postprocess (outfile : string) (cfg : config)
    (assembly tag : string) : M unit :=
  d <- lift (build_lookup (c_references cfg) ∅) ;;
  _ <- lift (relpath_check outfile cfg) ;;
  block <- lift (match d !! (assembly, tag) with
                 | Some b => Ok b
                 | None => Raise (KeyError (PTuple [PStr assembly; PStr tag]))
                 end) ;;
  spec <- lift (postprocess_spec (b_postprocess block)) ;;
  func <- lift (resolve_func spec.1) ;;
  fetch_and_run outfile block func spec.2.

End Pipeline.

(** ** Vocabulary of the statements *)

(** [d[assembly][tag][kind]], [None] when one of the keys is missing. *)
Definition table_get (d : table) (assembly tag kind : string) : option string :=
  m ← d !! assembly; e ← m !! tag; e !! kind.

(** The cell of [(assembly, tag)], empty when the table has none: the [e] that
    the loop body of [config_to_dict] starts from. *)
Definition cell_of (d : table) (assembly tag : string) : cell :=
  default ∅ (default ∅ (d !! assembly) !! tag).


(** The artifact kinds a block writes: its type, its conversions when it is
    a gtf block, its indexes and [chromsizes] when it is a fasta block. *)
Definition block_kinds (b : block) : list string :=
  b_type b
    :: (if decide (b_type b = "gtf") then default [] (b_conversions b) else [])
    ++ (if decide (b_type b = "fasta")
        then default [] (b_indexes b) ++ ["chromsizes"] else []).

(** Every kind the block asks for is in the table of known extensions. *)
Definition kinds_known (bowtie2_suffix hisat2_suffix : string) (b : block)
  : bool :=
  (if decide (b_type b = "gtf") then
     forallb (λ k, bool_decide (is_Some (conversion_extensions !! k)))
       (default [] (b_conversions b))
   else true)
  && (if decide (b_type b = "fasta") then
        forallb (λ k, bool_decide
                        (is_Some (index_extensions bowtie2_suffix hisat2_suffix !! k)))
          (default [] (b_indexes b))
      else true).

(** Two blocks address the same cell of the path table. *)
Definition same_cell (b1 b2 : block) : Prop :=
  b_assembly b1 = b_assembly b2 ∧ fill_tag b1 = fill_tag b2.

(** The block without the fields that do not belong to its type:
    [conversions] unless it is a gtf block, [indexes] unless it is a fasta
    block. *)
Definition drop_foreign_fields (b : block) : block :=
  {| b_assembly := b_assembly b;
     b_tag := b_tag b;
     b_type := b_type b;
     b_url := b_url b;
     b_indexes := if decide (b_type b = "fasta") then b_indexes b else None;
     b_conversions := if decide (b_type b = "gtf") then b_conversions b else None;
     b_postprocess := b_postprocess b |}.

(** ** Example configurations *)

(** The configuration of the worked example of the specification. *)
Definition dm6_r6_11 : block :=
  {| b_assembly := "dm6"; b_tag := Some "r6-11"; b_type := "fasta";
     b_url := UrlStr ""; b_indexes := Some ["bowtie2"];
     b_conversions := None; b_postprocess := None |}.

Definition dm6_config : config :=
  {| c_references_dir := Some "/data"; c_references := [dm6_r6_11] |}.

(** The path table the worked example is resolved to, for a given suffix of
    the bowtie2 index. *)
Definition dm6_table (bowtie2_suffix : string) : table :=
  {[ "dm6" :=
       {[ "r6-11" :=
            <["fasta" := "/data/dm6/fasta/dm6_r6-11.fasta"]>
              (<["chromsizes" := "/data/dm6/fasta/dm6_r6-11.chromsizes"]>
                 {[ "bowtie2" :=
                      "/data/dm6/bowtie2/dm6_r6-11" +:+ bowtie2_suffix ]}) ]} ]}.

(** The configuration and the table of the doctest of [config_to_dict]. *)
Definition doctest_config : config :=
  {| c_references_dir := Some "/data";
     c_references :=
       [ {| b_assembly := "dm6"; b_tag := Some "r6-11"; b_type := "fasta";
            b_url := UrlStr ""; b_indexes := Some ["bowtie2"; "hisat2"];
            b_conversions := None; b_postprocess := None |};
         {| b_assembly := "dm6"; b_tag := Some "r6-11_transcriptome";
            b_type := "fasta"; b_url := UrlStr "";
            b_indexes := Some ["kallisto"];
            b_conversions := None; b_postprocess := None |};
         {| b_assembly := "dm6"; b_tag := None; b_type := "gtf";
            b_url := UrlStr ""; b_indexes := None;
            b_conversions := Some ["refflat"]; b_postprocess := None |} ] |}.

Definition doctest_table : table :=
  {[ "dm6" :=
       <["r6-11" :=
           <["fasta" := "/data/dm6/fasta/dm6_r6-11.fasta"]>
             (<["chromsizes" := "/data/dm6/fasta/dm6_r6-11.chromsizes"]>
                (<["bowtie2" := "/data/dm6/bowtie2/dm6_r6-11.1.bt2"]>
                   {[ "hisat2" := "/data/dm6/hisat2/dm6_r6-11.1.ht2" ]}))]>
         (<["r6-11_transcriptome" :=
              <["fasta" := "/data/dm6/fasta/dm6_r6-11_transcriptome.fasta"]>
                (<["chromsizes" :=
                     "/data/dm6/fasta/dm6_r6-11_transcriptome.chromsizes"]>
                   {[ "kallisto" :=
                        "/data/dm6/kallisto/dm6_r6-11_transcriptome.idx" ]})]>
            {[ "default" :=
                 <["gtf" := "/data/dm6/gtf/dm6_default.gtf"]>
                   {[ "refflat" := "/data/dm6/gtf/dm6_default.refflat" ]} ]}) ]}.

(** The same block twice: a duplicate [(assembly, tag, type)]. *)
Definition dm6_twice : config :=
  {| c_references_dir := Some "/data";
     c_references := [dm6_r6_11; dm6_r6_11] |}.

(** A fasta block without [tag] and without [indexes]. *)
Definition dm6_plain : block :=
  {| b_assembly := "dm6"; b_tag := None; b_type := "fasta";
     b_url := UrlStr "http://example.org/dm6.fa.gz"; b_indexes := None;
     b_conversions := None; b_postprocess := None |}.

Definition dm6_plain_config : config :=
  {| c_references_dir := Some "/data"; c_references := [dm6_plain] |}.


(** A configuration without [references_dir]. *)
Definition dm6_nodir : config :=
  {| c_references_dir := None; c_references := [dm6_r6_11] |}.

(** A block of type other than gtf and fasta that carries both [indexes]
    and [conversions], naming kinds that no table knows. *)
Definition dm6_bed : block :=
  {| b_assembly := "dm6"; b_tag := Some "r6-11"; b_type := "bed";
     b_url := UrlStr ""; b_indexes := Some ["star"];
     b_conversions := Some ["gff3"]; b_postprocess := None |}.

(** A configuration with [dm6_bed] after the worked example's block. *)
Definition dm6_bed_config : config :=
  {| c_references_dir := Some "/data"; c_references := [dm6_r6_11; dm6_bed] |}.

(** The worked example's suffixes: the doctest of [config_to_dict] shows
    [.1.bt2] and [.1.ht2]. *)
Definition doc_bowtie2_suffix : string := ".1.bt2".
Definition doc_hisat2_suffix : string := ".1.ht2".

(** A postprocessing function that fails, and one that writes the output
    file and leaves its inputs in place. *)
Definition failing_postprocess : postprocessor :=
  λ _ _ _, raise (Exception "RuntimeError" "postprocessing failed").

Definition writing_postprocess : postprocessor :=
  λ _ outfile _ fs, (Ok (), {[outfile]} ∪ fs).

(** A registry of function names for the examples. *)
Definition example_registry (name : pyval) : result postprocessor :=
  match name with
  | PStr s =>
      if String.eqb s "lib.postprocess.fail" then Ok failing_postprocess
      else if String.eqb s "lib.postprocess.write" then Ok writing_postprocess
      else Raise (Exception "ImportError" s)
  | _ => Raise (TypeError "name must be a string")
  end.

(** A network on which every fetch succeeds. *)
Definition all_fetched : string → bool := λ _, false.

Definition with_postprocess (pp : pyval) (b : block) : block :=
  {| b_assembly := b_assembly b; b_tag := b_tag b; b_type := b_type b;
     b_url := b_url b; b_indexes := b_indexes b;
     b_conversions := b_conversions b; b_postprocess := Some pp |}.

Definition config_of (b : block) : config :=
  {| c_references_dir := Some "/data"; c_references := [b] |}.

(** A [postprocess] mapping without the key [function]. *)
Definition args_only : list (string * pyval) := [("args", PStr "FOO")].

(** A [postprocess] mapping with both keys, [args] a bare string. *)
Definition filter_foo : list (string * pyval) :=
  [("function", PStr "lib.postprocess.write"); ("args", PStr "FOO")].

(** A fasta block and a block of type [chromsizes] of the same assembly and
    tag. *)
Definition dm6_sizes : block :=
  {| b_assembly := "dm6"; b_tag := None; b_type := "chromsizes";
     b_url := UrlStr "http://example.org/dm6.sizes"; b_indexes := None;
     b_conversions := None; b_postprocess := None |}.

Definition dm6_fasta_then_sizes : config :=
  {| c_references_dir := Some "/data"; c_references := [dm6_plain; dm6_sizes] |}.

(** A fasta block and a gtf block of the same assembly and tag. *)
Definition dm6_gtf : block :=
  {| b_assembly := "dm6"; b_tag := None; b_type := "gtf";
     b_url := UrlStr "http://example.org/dm6.gtf.gz"; b_indexes := None;
     b_conversions := Some ["refflat"]; b_postprocess := None |}.

Definition dm6_fasta_then_gtf : config :=
  {| c_references_dir := Some "/data"; c_references := [dm6_plain; dm6_gtf] |}.

(** The table of a result, empty when it is an exception. *)
Definition table_of (r : result table) : table :=
  match r with
  | Ok d => d
  | Raise _ => ∅
  end.

(** ** [filter_fastas] *)

(** A record of a FASTA file as [Bio.SeqIO] hands it over: the fields that
    [filter_fastas] reads or writes, and [id], which it leaves alone. *)
Record seq_record : Type := SeqRecord {
  rec_id : string;
  rec_name : string;
  rec_description : string;
  rec_seq : string;
}.

(** [pattern in s] on Python strings: [pattern] occurs in [s] as a
    substring. *)
Fixpoint str_contains (pattern s : string) : bool :=
  if String.prefix pattern s then true
  else match s with
       | EmptyString => false
       | String _ rest => str_contains pattern rest
       end.

Section FastaFilter.

(** [SeqIO.parse(gzip.open(tmp, 'rt'), 'fasta')]: the records of the file at
    a path, in the order of the file.  Reading and parsing are Biopython's;
    the files are taken to exist and to be well-formed. *)
Variable parse_fasta : string → list seq_record.

(** [Seq.back_transcribe], Biopython's. *)
Variable back_transcribe : string → string.

(** The inner loop of [gen], lines 35 to 40. *)
Fixpoint gen_records (parser : list seq_record) (pattern : string)
  : list seq_record :=
  match parser with
  | [] => []
  | rec :: rest =>
      if negb (str_contains pattern (rec_description rec)) then
        gen_records rest pattern
      else
        {| rec_id := rec_id rec;
           rec_name := rec_name rec;
           rec_description := rec_name rec;
           rec_seq := back_transcribe (rec_seq rec) |}
          :: gen_records rest pattern
  end.

(** The generator [gen] of [filter_fastas], lines 31 to 40: the records it
    yields, in order. *)
Fixpoint gen (tmpfiles : list string) (pattern : string) : list seq_record :=
  match tmpfiles with
  | [] => []
  | tmp :: rest => gen_records (parse_fasta tmp) pattern ++ gen rest pattern
  end.

End FastaFilter.

(** ** More vocabulary *)

(** A record as [gen] yields it: sequence back-transcribed, description
    reset to the name. *)
Definition yielded (back_transcribe : string → string) (rec : seq_record)
  : seq_record :=
  {| rec_id := rec_id rec;
     rec_name := rec_name rec;
     rec_description := rec_name rec;
     rec_seq := back_transcribe (rec_seq rec) |}.

(** ** More example configurations *)

(** The registry of the examples, with [cat] under its dotted name. *)
Definition common_registry (name : pyval) : result postprocessor :=
  match name with
  | PStr s =>
      if String.eqb s "lib.common.cat" then Ok (cat all_fetched)
      else example_registry name
  | _ => example_registry name
  end.

(** A network on which the second of the two example URLs cannot be
    fetched. *)
Definition second_fails (url : string) : bool :=
  String.eqb url "http://example.org/dm6.2.fa.gz".

(** A block with two URLs. *)
Definition dm6_two_urls : block :=
  {| b_assembly := "dm6"; b_tag := None; b_type := "fasta";
     b_url := UrlList ["http://example.org/dm6.1.fa.gz";
                       "http://example.org/dm6.2.fa.gz"];
     b_indexes := None; b_conversions := None; b_postprocess := None |}.

(** A [postprocess] mapping whose [args] is null. *)
Definition args_null : list (string * pyval) :=
  [("function", PStr "lib.postprocess.write"); ("args", PNone)].

Definition dm6_out : string := "/data/dm6/fasta/dm6_default.fasta".

(** An output file named by a plain name, in the working directory. *)
Definition dm6_here : string := "dm6_default.fasta".





(** The key of a block in the lookup of [download_and_postprocess]. *)
Definition block_key (b : block) : string * string :=
  (b_assembly b, fill_tag b).

(** The kinds that a block can write besides its type: the keys of the two
    extension tables, and [chromsizes]. *)
Definition derived_kinds : list string :=
  ["intergenic"; "refflat"; "bowtie2"; "hisat2"; "kallisto"; "chromsizes"].

(** A path of the form
    [{references_dir}/{assembly}/{dir}/{assembly}_{tag}{suffix}]. *)
Definition well_shaped (references_dir assembly tag path : string) : Prop :=
  ∃ dir suffix,
    path = references_dir +:+ "/" +:+ assembly +:+ "/" +:+ dir +:+ "/"
             +:+ assembly +:+ "_" +:+ tag +:+ suffix.

(** No block's type is among the kinds written by an earlier block of the
    same assembly and tag. *)
Definition no_collision (bs : list block) : Prop :=
  ∀ i j bi bj, i < j → bs !! i = Some bi → bs !! j = Some bj →
               same_cell bi bj → b_type bj ∉ block_kinds bi.

(** The file of the log of a call. *)
Definition log_name (outfile : string) : string := outfile +:+ ".log".

(** *** Operands that [bash] reads as they are written *)

Definition is_alnum (c : ascii) : bool :=
  let n := Ascii.nat_of_ascii c in
  (Nat.leb 48 n && Nat.leb n 57) || (Nat.leb 65 n && Nat.leb n 90)
  || (Nat.leb 97 n && Nat.leb n 122).

Fixpoint all_chars (P : ascii → bool) (s : string) : bool :=
  match s with
  | EmptyString => true
  | String c rest => P c && all_chars P rest
  end.

Definition name_char (c : ascii) : bool := is_alnum c || has_char c "_.+-".

Definition url_char (c : ascii) : bool := name_char c || has_char c "/:%=@,".

(** A file name in the working directory that is one shell word: letters,
    digits and [_ . + -], starting with a letter, a digit or [_]. *)
Definition plain_name (s : string) : bool :=
  match s with
  | EmptyString => false
  | String c rest => (is_alnum c || has_char c "_") && all_chars name_char rest
  end.

(** Text in ASCII. *)
Definition ascii_only (s : string) : bool :=
  all_chars (λ c, Nat.ltb (Ascii.nat_of_ascii c) 128) s.

(** A URL that is one shell word: the characters of a plain name and
    [/ : % = @ ,], starting with a letter or a digit. *)
Definition url_word (s : string) : bool :=
  match s with
  | EmptyString => false
  | String c rest => is_alnum c && all_chars url_char rest
  end.

(** The log file as far as downloading [n] URLs creates it: every [wget]
    command line redirects to it, so it exists as soon as there is one
    URL. *)
Definition log_files (outfile : string) (n : nat) : FS :=
  if decide (n = 0) then ∅ else {[log_name outfile]}.

(** The temporary files of a call with [n] URLs, as a set. *)
Definition tmpfile_set (outfile : string) (n : nat) : FS :=
  list_to_set (tmpfile_names outfile n).

(** None of the files that a call with [n] URLs writes exists beforehand,
    as a file or as a directory. *)
Definition fresh_call (outfile : string) (n : nat) (fs : FS) : Prop :=
  (outfile ∉ fs) ∧ (log_name outfile ∉ fs) ∧ (tmpfile_set outfile n ## fs).

(** The conditions under which the command lines of a call are what the
    model of [shell] takes them for. *)
Definition plain_call (outfile : string) (b : block) (fs : FS) : Prop :=
  plain_name outfile = true
  ∧ Forall (λ url, url_word url = true) (url_list b)
  ∧ fresh_call outfile (length (url_list b)) fs.

(** The call once the function and its extra arguments are known: the
    downloads, [func(tmpfiles, outfile, *extra)], the cleanup. *)
Definition call_postprocess (wget_fails : string → bool) (outfile : string)
    (b : block) (func : postprocessor) (extra : list pyval) : M unit :=
  let tmpfiles := tmpfile_names outfile (length (url_list b)) in
  _ <- download_all wget_fails outfile (zip (url_list b) tmpfiles) ;;
  _ <- func tmpfiles outfile extra ;;
  cleanup wget_fails tmpfiles.

(** * Properties of [config_to_dict] *)

Section PathResolverFacts.

Variables bowtie2_suffix hisat2_suffix : string.

Local Abbreviation index_exts := (index_extensions bowtie2_suffix hisat2_suffix).
Local Abbreviation add_idx := (add_indexes bowtie2_suffix hisat2_suffix).
Local Abbreviation entries := (cell_entries bowtie2_suffix hisat2_suffix).
Local Abbreviation step := (process_block bowtie2_suffix hisat2_suffix).
Local Abbreviation steps := (process_blocks bowtie2_suffix hisat2_suffix).
Local Abbreviation resolve := (config_to_dict bowtie2_suffix hisat2_suffix).
Local Abbreviation known := (kinds_known bowtie2_suffix hisat2_suffix).

(** *** The two loops over requested kinds *)

Lemma add_conversions_dom rd a t ty l (e e' : cell) :
  add_conversions rd a t ty l e = Ok e' →
  dom e' = dom e ∪ list_to_set l.
Proof.
  revert e. induction l as [|k l IH]; intros e; simpl.
  - intros [= ->]. set_solver.
  - destruct (conversion_extensions !! k) as [ext|]; [|done].
    intros H. apply IH in H. rewrite H, dom_insert_L. set_solver.
Qed.

Lemma add_indexes_dom rd a t l (e e' : cell) :
  add_idx rd a t l e = Ok e' →
  dom e' = dom e ∪ list_to_set l.
Proof.
  revert e. induction l as [|k l IH]; intros e; simpl.
  - intros [= ->]. set_solver.
  - destruct (index_exts !! k) as [ext|]; [|done].
    intros H. apply IH in H. rewrite H, dom_insert_L. set_solver.
Qed.

Lemma add_conversions_other rd a t ty l (e e' : cell) k :
  add_conversions rd a t ty l e = Ok e' → k ∉ l → e' !! k = e !! k.
Proof.
  revert e. induction l as [|k' l IH]; intros e; simpl.
  - by intros [= ->].
  - destruct (conversion_extensions !! k') as [ext|]; [|done].
    intros H Hk. apply not_elem_of_cons in Hk as [Hne Hk].
    rewrite (IH _ H Hk). by rewrite lookup_insert_ne.
Qed.

Lemma add_indexes_other rd a t l (e e' : cell) k :
  add_idx rd a t l e = Ok e' → k ∉ l → e' !! k = e !! k.
Proof.
  revert e. induction l as [|k' l IH]; intros e; simpl.
  - by intros [= ->].
  - destruct (index_exts !! k') as [ext|]; [|done].
    intros H Hk. apply not_elem_of_cons in Hk as [Hne Hk].
    rewrite (IH _ H Hk). by rewrite lookup_insert_ne.
Qed.

Lemma add_conversions_known rd a t ty l (e e' : cell) :
  add_conversions rd a t ty l e = Ok e' →
  Forall (λ k, is_Some (conversion_extensions !! k)) l.
Proof.
  revert e. induction l as [|k l IH]; intros e; simpl; [by constructor|].
  destruct (conversion_extensions !! k) as [ext|] eqn:Hk; [|done].
  intros H. constructor; [by rewrite Hk|]. by eapply IH.
Qed.

Lemma add_indexes_known rd a t l (e e' : cell) :
  add_idx rd a t l e = Ok e' →
  Forall (λ k, is_Some (index_exts !! k)) l.
Proof.
  revert e. induction l as [|k l IH]; intros e; simpl; [by constructor|].
  destruct (index_exts !! k) as [ext|] eqn:Hk; [|done].
  intros H. constructor; [by rewrite Hk|]. by eapply IH.
Qed.

Lemma add_conversions_total rd a t ty l (e : cell) :
  Forall (λ k, is_Some (conversion_extensions !! k)) l →
  ∃ e', add_conversions rd a t ty l e = Ok e'.
Proof.
  intros Hl. revert e. induction Hl as [|k l [ext Hk] _ IH]; intros e; simpl.
  - by eexists.
  - rewrite Hk. apply IH.
Qed.

Lemma add_indexes_total rd a t l (e : cell) :
  Forall (λ k, is_Some (index_exts !! k)) l →
  ∃ e', add_idx rd a t l e = Ok e'.
Proof.
  intros Hl. revert e. induction Hl as [|k l [ext Hk] _ IH]; intros e; simpl.
  - by eexists.
  - rewrite Hk. apply IH.
Qed.



(** *** The keys of the two extension tables *)

Lemma conversion_extensions_keys k :
  is_Some (conversion_extensions !! k) ↔ k = "intergenic" ∨ k = "refflat".
Proof.
  unfold conversion_extensions, is_Some. split.
  - intros [ext H]. rewrite !lookup_insert_Some, lookup_empty in H.
    naive_solver.
  - intros [-> | ->]; eexists; reflexivity.
Qed.

Lemma index_extensions_keys k :
  is_Some (index_exts !! k) ↔
  k = "bowtie2" ∨ k = "hisat2" ∨ k = "kallisto".
Proof.
  unfold index_extensions, is_Some. split.
  - intros [ext H]. rewrite !lookup_insert_Some, lookup_empty in H.
    naive_solver.
  - intros [-> | [-> | ->]]; eexists; reflexivity.
Qed.

(** *** What one block writes into its cell *)

Ltac split_type b :=
  destruct (decide (b_type b = "gtf")) as [Hgtf|Hgtf];
  destruct (decide (b_type b = "fasta")) as [Hfasta|Hfasta];
  [ exfalso; rewrite Hgtf in Hfasta; discriminate | | | ].

Lemma cell_entries_dom rd b (e e' : cell) :
  entries rd b e = Ok e' →
  dom e' = dom e ∪ list_to_set (block_kinds b).
Proof.
  unfold cell_entries, block_kinds. split_type b; simpl.
  - destruct (add_conversions _ _ _ _ _ _) as [e1|] eqn:H1; simpl; [|done].
    intros [= <-]. apply add_conversions_dom in H1.
    rewrite H1, dom_insert_L. set_solver.
  - destruct (add_indexes _ _ _ _ _ _ _) as [e1|] eqn:H1; simpl; [|done].
    intros [= <-]. apply add_indexes_dom in H1.
    rewrite dom_insert_L, H1, dom_insert_L. set_solver.
  - intros [= <-]. rewrite dom_insert_L. set_solver.
Qed.

Lemma cell_entries_known rd b (e e' : cell) :
  entries rd b e = Ok e' → known b = true.
Proof.
  unfold cell_entries, kinds_known. split_type b; simpl; [| |done].
  - destruct (add_conversions _ _ _ _ _ _) as [e1|] eqn:H1; simpl; [|done].
    intros _. apply add_conversions_known in H1.
    rewrite andb_true_r. apply forallb_forall. intros k Hk.
    apply bool_decide_eq_true. rewrite Forall_forall in H1.
    apply H1. by apply list_elem_of_In.
  - destruct (add_indexes _ _ _ _ _ _ _) as [e1|] eqn:H1; simpl; [|done].
    intros _. apply add_indexes_known in H1.
    apply forallb_forall. intros k Hk.
    apply bool_decide_eq_true. rewrite Forall_forall in H1.
    apply H1. by apply list_elem_of_In.
Qed.

Lemma cell_entries_total rd b (e : cell) :
  known b = true → ∃ e', entries rd b e = Ok e'.
Proof.
  unfold cell_entries, kinds_known. split_type b; simpl.
  - rewrite andb_true_r. intros H.
    edestruct add_conversions_total as [e1 ->]; [|by eexists].
    apply Forall_forall. intros k Hk.
    rewrite forallb_forall in H. apply list_elem_of_In, H in Hk.
    by apply bool_decide_eq_true in Hk.
  - intros H.
    edestruct add_indexes_total as [e1 ->]; [|by eexists].
    apply Forall_forall. intros k Hk.
    rewrite forallb_forall in H. apply list_elem_of_In, H in Hk.
    by apply bool_decide_eq_true in Hk.
  - by eexists.
Qed.

Lemma cell_entries_chromsizes rd b (e e' : cell) :
  entries rd b e = Ok e' → b_type b = "fasta" →
  e' !! "chromsizes"
  = Some (chromsizes_path rd (b_assembly b) (fill_tag b) "fasta").
Proof.
  unfold cell_entries. intros H Hf. rewrite Hf in H. simpl in H.
  destruct (add_indexes _ _ _ _ _ _ _) as [e1|]; simpl in H; [|done].
  injection H as <-. apply lookup_insert_eq.
Qed.

Lemma cell_entries_keeps_chromsizes rd b (e e' : cell) :
  entries rd b e = Ok e' →
  b_type b ≠ "fasta" → b_type b ≠ "chromsizes" →
  e' !! "chromsizes" = e !! "chromsizes".
Proof.
  unfold cell_entries. intros H Hf Hc. split_type b; simpl in H; [|done|].
  - destruct (add_conversions _ _ _ _ _ _) as [e1|] eqn:H1; simpl in H; [|done].
    injection H as <-.
    pose proof (add_conversions_known _ _ _ _ _ _ _ H1) as Hk.
    rewrite (add_conversions_other _ _ _ _ _ _ _ _ H1).
    + by rewrite lookup_insert_ne.
    + intros Hin. rewrite Forall_forall in Hk.
      apply Hk, conversion_extensions_keys in Hin. naive_solver.
  - injection H as <-. by rewrite lookup_insert_ne.
Qed.

(** *** The loop body on the table *)

Lemma table_get_cell_of (d : table) a t k :
  table_get d a t k = cell_of d a t !! k.
Proof.
  unfold table_get, cell_of.
  destruct (d !! a) as [m|]; simpl; [|by rewrite lookup_empty].
  destruct (m !! t) as [e|]; simpl; [done|by rewrite lookup_empty].
Qed.

Lemma process_block_eq rd (d : table) b :
  step rd d b =
  let e := cell_of d (b_assembly b) (fill_tag b) in
  if decide (is_Some (e !! b_type b)) then
    Raise (ValueError (exists_msg (fill_tag b) (b_type b) (b_assembly b)))
  else
    e' <~ entries rd b e ;;
    Ok (<[b_assembly b :=
            <[fill_tag b := e']> (default ∅ (d !! b_assembly b))]> d).
Proof.
  unfold process_block, cell_entries, cell_of. simpl.
  destruct (decide (is_Some (d !! b_assembly b))) as [Hd|Hd].
  - destruct (decide _); [done|].
    destruct (if decide (b_type b = "gtf") then _ else _); simpl; [|done].
    destruct (if decide (b_type b = "fasta") then _ else _); simpl; done.
  - apply eq_None_not_Some in Hd. rewrite Hd, lookup_insert_eq. simpl.
    destruct (decide _); [done|].
    destruct (if decide (b_type b = "gtf") then _ else _); simpl; [|done].
    destruct (if decide (b_type b = "fasta") then _ else _); simpl; [|done].
    by rewrite insert_insert_eq.
Qed.

Lemma cell_of_insert_same (d : table) a t (e : cell) :
  cell_of (<[a := <[t := e]> (default ∅ (d !! a))]> d) a t = e.
Proof. unfold cell_of. by rewrite lookup_insert_eq; simpl; rewrite lookup_insert_eq. Qed.

Lemma cell_of_insert_other (d : table) a t (e : cell) a' t' :
  (a', t') ≠ (a, t) →
  cell_of (<[a := <[t := e]> (default ∅ (d !! a))]> d) a' t' = cell_of d a' t'.
Proof.
  intros Hne. unfold cell_of. destruct (decide (a = a')) as [->|Ha].
  - rewrite lookup_insert_eq. simpl. rewrite lookup_insert_ne; [done|].
    congruence.
  - by rewrite lookup_insert_ne.
Qed.

(** A block that is accepted passed the uniqueness check, and changed its
    own cell only, by [cell_entries]. *)
Lemma process_block_ok rd (d d' : table) b :
  step rd d b = Ok d' →
  cell_of d (b_assembly b) (fill_tag b) !! b_type b = None
  ∧ entries rd b (cell_of d (b_assembly b) (fill_tag b))
    = Ok (cell_of d' (b_assembly b) (fill_tag b))
  ∧ ∀ a t, (a, t) ≠ (b_assembly b, fill_tag b) →
           cell_of d' a t = cell_of d a t.
Proof.
  rewrite process_block_eq. simpl.
  destruct (decide _) as [|Hnone]; [done|].
  destruct (entries _ _ _) as [e'|]; simpl; [|done].
  intros [= <-]. split; [by apply eq_None_not_Some|]. split.
  - by rewrite cell_of_insert_same.
  - intros. by apply cell_of_insert_other.
Qed.

Lemma process_block_total rd (d : table) b :
  cell_of d (b_assembly b) (fill_tag b) !! b_type b = None →
  known b = true →
  ∃ d', step rd d b = Ok d'.
Proof.
  intros Hnone Hk. rewrite process_block_eq. simpl.
  destruct (decide _) as [Hs|_].
  - rewrite Hnone in Hs. by destruct Hs.
  - destruct (cell_entries_total rd b (cell_of d (b_assembly b) (fill_tag b)) Hk)
      as [e' ->].
    by eexists.
Qed.

Lemma process_block_kinds rd (d d' : table) b a t k :
  step rd d b = Ok d' →
  is_Some (cell_of d' a t !! k) ↔
  is_Some (cell_of d a t !! k)
  ∨ (a = b_assembly b ∧ t = fill_tag b ∧ k ∈ block_kinds b).
Proof.
  intros (Hnone & He & Hother)%process_block_ok.
  destruct (decide ((a, t) = (b_assembly b, fill_tag b))) as [[= -> ->]|Hne].
  - apply cell_entries_dom in He.
    rewrite <- !elem_of_dom, He, elem_of_union, elem_of_list_to_set.
    naive_solver.
  - rewrite (Hother _ _ Hne). naive_solver.
Qed.

(** *** The whole loop *)

Lemma process_blocks_app rd l1 l2 (d : table) :
  steps rd (l1 ++ l2) d = (d1 <~ steps rd l1 d ;; steps rd l2 d1).
Proof.
  revert d. induction l1 as [|b l1 IH]; intros d; simpl; [done|].
  destruct (step rd d b) as [d1|]; simpl; [apply IH|done].
Qed.

(** The kinds present in an accepted table are those present at the start
    and those written by the blocks. *)
Lemma process_blocks_kinds rd bs (d d' : table) a t k :
  steps rd bs d = Ok d' →
  is_Some (cell_of d' a t !! k) ↔
  is_Some (cell_of d a t !! k)
  ∨ ∃ b, b ∈ bs ∧ a = b_assembly b ∧ t = fill_tag b ∧ k ∈ block_kinds b.
Proof.
  revert d. induction bs as [|b bs IH]; intros d; simpl.
  - intros [= ->]. split; [by left|]. intros [?|(b & Hb & _)]; [done|].
    by apply elem_of_nil in Hb.
  - destruct (step rd d b) as [d1|] eqn:H1; simpl; [|done].
    intros H. rewrite (IH _ H), (process_block_kinds _ _ _ _ _ _ _ H1).
    split.
    + intros [[?|?]|(b' & Hb' & ?)]; [by left|right..].
      * exists b. split; [left|done].
      * exists b'. split; [by right|done].
    + intros [?|(b' & [->|Hb']%elem_of_cons & ?)];
        [by left; left|by left; right|right; by exists b'].
Qed.

Lemma process_blocks_known rd bs (d d' : table) b :
  steps rd bs d = Ok d' → b ∈ bs → known b = true.
Proof.
  revert d. induction bs as [|b0 bs IH]; intros d; simpl.
  - intros _ Hb. by apply elem_of_nil in Hb.
  - destruct (step rd d b0) as [d1|] eqn:H1; simpl; [|done].
    intros H [->|Hb]%elem_of_cons; [|by eapply IH].
    apply process_block_ok in H1 as (_ & He & _).
    by eapply cell_entries_known.
Qed.

(** A block whose type is already a kind of its cell is rejected with the
    duplicate error. *)
Lemma process_block_duplicate rd (d : table) b :
  is_Some (cell_of d (b_assembly b) (fill_tag b) !! b_type b) →
  step rd d b
  = Raise (ValueError (exists_msg (fill_tag b) (b_type b) (b_assembly b))).
Proof. intros Hs. rewrite process_block_eq. simpl. by rewrite decide_True. Qed.


(** A config is accepted when the references directory is known, every
    requested kind is known, and no block's type is already a kind of its
    cell when the block is reached. *)
Lemma process_blocks_total rd bs (d : table) :
  (∀ b, b ∈ bs → known b = true) →
  (∀ b, b ∈ bs →
        cell_of d (b_assembly b) (fill_tag b) !! b_type b = None) →
  (∀ i j bi bj, i < j → bs !! i = Some bi → bs !! j = Some bj →
                same_cell bi bj → b_type bj ∉ block_kinds bi) →
  ∃ d', steps rd bs d = Ok d'.
Proof.
  revert d. induction bs as [|b bs IH]; intros d Hk Hd Hpair; simpl.
  - by eexists.
  - destruct (process_block_total rd d b) as [d1 H1].
    { apply Hd. left. }
    { apply Hk. left. }
    rewrite H1. simpl. apply IH.
    + intros b' Hb'. apply Hk. by right.
    + intros b' Hb'. apply eq_None_not_Some.
      rewrite (process_block_kinds _ _ _ _ _ _ _ H1).
      intros [Hs|(Ha & Ht & Hin)].
      * rewrite Hd in Hs; [by destruct Hs|by right].
      * apply list_elem_of_lookup in Hb' as [j Hj].
        by apply (Hpair 0 (S j) b b'); [lia|done|done|split|].
    + intros i j bi bj Hij Hi Hj.
      apply (Hpair (S i) (S j)); [lia|done|done].
Qed.

(** *** The properties of the specification *)




(** C5. [REFERENCES_DIR] of the environment, when set, is the references
    directory whatever the configuration says; otherwise the
    configuration's [references_dir] is; with neither, the function raises
    [ValueError('References dir not set')]. *)
Theorem references_dir_precedence environ cfg :
  (∀ r, environ !! "REFERENCES_DIR" = Some r →
        config_to_dict bowtie2_suffix hisat2_suffix environ cfg
        = process_blocks bowtie2_suffix hisat2_suffix r (c_references cfg) ∅)
  ∧ (∀ r, environ !! "REFERENCES_DIR" = None →
          c_references_dir cfg = Some r →
          config_to_dict bowtie2_suffix hisat2_suffix environ cfg
          = process_blocks bowtie2_suffix hisat2_suffix r (c_references cfg) ∅)
  ∧ (environ !! "REFERENCES_DIR" = None →
     c_references_dir cfg = None →
     config_to_dict bowtie2_suffix hisat2_suffix environ cfg
     = Raise (ValueError "References dir not set")).
Proof.
  unfold config_to_dict, get_references_dir.
  split; [|split].
  - by intros r ->.
  - by intros r -> ->.
  - by intros -> ->.
Qed.

(** C6. The worked example: with no environment override, the
    configuration with the one fasta block dm6 / r6-11 / indexes bowtie2
    under "/data" resolves to the table with exactly the entries fasta,
    chromsizes and bowtie2 of the cell dm6, r6-11, at the paths given. *)
Theorem dm6_example :
  config_to_dict bowtie2_suffix hisat2_suffix ∅ dm6_config
  = Ok (dm6_table bowtie2_suffix)
  ∧ table_get (dm6_table bowtie2_suffix) "dm6" "r6-11" "fasta"
    = Some "/data/dm6/fasta/dm6_r6-11.fasta"
  ∧ table_get (dm6_table bowtie2_suffix) "dm6" "r6-11" "chromsizes"
    = Some "/data/dm6/fasta/dm6_r6-11.chromsizes"
  ∧ table_get (dm6_table bowtie2_suffix) "dm6" "r6-11" "bowtie2"
    = Some ("/data/dm6/bowtie2/dm6_r6-11" +:+ bowtie2_suffix).
Proof. repeat split; vm_compute; reflexivity. Qed.

(** The cell of a fasta block, once written, keeps its [fasta] key and its
    [chromsizes] path through every later block that is accepted. *)
Lemma process_block_fasta_cell rd (d d' : table) b a t :
  step rd d b = Ok d' →
  (is_Some (cell_of d a t !! "fasta")
   ∧ cell_of d a t !! "chromsizes" = Some (chromsizes_path rd a t "fasta"))
  ∨ (b_type b = "fasta" ∧ a = b_assembly b ∧ t = fill_tag b) →
  is_Some (cell_of d' a t !! "fasta")
  ∧ cell_of d' a t !! "chromsizes" = Some (chromsizes_path rd a t "fasta").
Proof.
  intros H1 Hcase.
  pose proof (process_block_ok _ _ _ _ H1) as (Hnone & He & Hother).
  destruct Hcase as [[Hf Hc]|(Hty & -> & ->)]; split.
  - apply (process_block_kinds _ _ _ _ _ _ _ H1). by left.
  - destruct (decide ((a, t) = (b_assembly b, fill_tag b)))
      as [[= -> ->]|Hne]; [|by rewrite Hother].
    rewrite (cell_entries_keeps_chromsizes _ _ _ _ He); [done|..].
    + intros Hty. rewrite Hty in Hnone. rewrite Hnone in Hf. by destruct Hf.
    + intros Hty. rewrite Hty in Hnone. by rewrite Hc in Hnone.
  - apply (process_block_kinds _ _ _ _ _ _ _ H1). right.
    split; [done|split; [done|]]. rewrite <- Hty. left.
  - by apply (cell_entries_chromsizes _ _ _ _ He).
Qed.

Lemma process_blocks_fasta_cell rd bs (d d' : table) a t :
  steps rd bs d = Ok d' →
  (is_Some (cell_of d a t !! "fasta")
   ∧ cell_of d a t !! "chromsizes" = Some (chromsizes_path rd a t "fasta"))
  ∨ (∃ b, b ∈ bs ∧ b_type b = "fasta" ∧ a = b_assembly b ∧ t = fill_tag b) →
  is_Some (cell_of d' a t !! "fasta")
  ∧ cell_of d' a t !! "chromsizes" = Some (chromsizes_path rd a t "fasta").
Proof.
  revert d. induction bs as [|b0 bs IH]; intros d; simpl.
  - intros [= ->] [?|(b & Hb & _)]; [done|]. by apply elem_of_nil in Hb.
  - destruct (step rd d b0) as [d1|] eqn:H1; simpl; [|done].
    intros H Hcase. apply (IH _ H).
    destruct Hcase as [Hd|(b & [->|Hb]%elem_of_cons & Hb')].
    + left. apply (process_block_fasta_cell _ _ _ _ _ _ H1). by left.
    + left. apply (process_block_fasta_cell _ _ _ _ _ _ H1). by right.
    + right. by exists b.
Qed.

(** C7. In an accepted configuration, the cell of every fasta block has
    the entry [chromsizes], at
    [{references_dir}/{assembly}/fasta/{assembly}_{tag}.chromsizes],
    whatever the block's [indexes] (absent and empty included). *)
Theorem fasta_block_has_chromsizes environ cfg rd (d : table) b :
  config_to_dict bowtie2_suffix hisat2_suffix environ cfg = Ok d →
  get_references_dir environ cfg = Some rd →
  b ∈ c_references cfg →
  b_type b = "fasta" →
  table_get d (b_assembly b) (fill_tag b) "chromsizes"
  = Some (rd +:+ "/" +:+ b_assembly b +:+ "/fasta/" +:+ b_assembly b
             +:+ "_" +:+ fill_tag b +:+ ".chromsizes").
Proof.
  unfold config_to_dict. intros H Hrd Hb Hty. rewrite Hrd in H.
  rewrite table_get_cell_of.
  apply (process_blocks_fasta_cell _ _ _ _ (b_assembly b) (fill_tag b)) in H
    as [_ ->]; [done|].
  right. by exists b.
Qed.

Lemma process_block_drop_foreign_fields rd (d : table) b :
  step rd d (drop_foreign_fields b) = step rd d b.
Proof.
  unfold process_block, drop_foreign_fields, fill_tag. simpl.
  destruct (decide (b_type b = "gtf")), (decide (b_type b = "fasta"));
    reflexivity.
Qed.

Lemma process_blocks_drop_foreign_fields rd bs (d : table) :
  steps rd (drop_foreign_fields <$> bs) d = steps rd bs d.
Proof.
  revert d. induction bs as [|b bs IH]; intros d; simpl; [done|].
  rewrite process_block_drop_foreign_fields.
  destruct (step rd d b); simpl; [apply IH|done].
Qed.

(** C10. [conversions] on a block that is not a gtf block and [indexes] on
    a block that is not a fasta block have no effect: the configuration
    resolves to the same table, or raises the same exception, as the one
    in which these fields are absent, whatever kinds they name. *)
Theorem foreign_fields_ignored environ cfg :
  config_to_dict bowtie2_suffix hisat2_suffix environ
    {| c_references_dir := c_references_dir cfg;
       c_references := drop_foreign_fields <$> c_references cfg |}
  = config_to_dict bowtie2_suffix hisat2_suffix environ cfg.
Proof.
  unfold config_to_dict, get_references_dir. simpl.
  destruct (environ !! "REFERENCES_DIR");
    [|destruct (c_references_dir cfg); [|done]];
    apply process_blocks_drop_foreign_fields.
Qed.

End PathResolverFacts.

(** The message of the duplicate-key error of the lookup. *)
Example key_exists_msg_dm6 :
  key_exists_msg "dm6" "default" = "key ('dm6', 'default') already exists".
Proof. reflexivity. Qed.

(** The doctest of [config_to_dict], run on the model. *)
Example doctest_config_to_dict :
  config_to_dict doc_bowtie2_suffix doc_hisat2_suffix ∅ doctest_config
  = Ok doctest_table.
Proof. vm_compute. reflexivity. Qed.

(** A block of type [bed] with [indexes] and [conversions] of unknown kinds
    gets its one entry, after the entries of the worked example. *)
Example bed_block_accepted :
  config_to_dict doc_bowtie2_suffix doc_hisat2_suffix ∅ dm6_bed_config
  = Ok (<["dm6" :=
            {[ "r6-11" :=
                 <["bed" := "/data/dm6/bed/dm6_r6-11.bed"]>
                   (cell_of (dm6_table doc_bowtie2_suffix) "dm6" "r6-11") ]}]>
          (dm6_table doc_bowtie2_suffix)).
Proof. vm_compute. reflexivity. Qed.





Lemma references_dir_precedence_witness :
  config_to_dict doc_bowtie2_suffix doc_hisat2_suffix
    {[ "REFERENCES_DIR" := "/env" ]} dm6_config
  = process_blocks doc_bowtie2_suffix doc_hisat2_suffix "/env" [dm6_r6_11] ∅
  ∧ config_to_dict doc_bowtie2_suffix doc_hisat2_suffix ∅ dm6_config
    = process_blocks doc_bowtie2_suffix doc_hisat2_suffix "/data" [dm6_r6_11] ∅
  ∧ config_to_dict doc_bowtie2_suffix doc_hisat2_suffix ∅ dm6_nodir
    = Raise (ValueError "References dir not set").
Proof.
  split; [|split].
  - apply (proj1 (references_dir_precedence doc_bowtie2_suffix
                    doc_hisat2_suffix {[ "REFERENCES_DIR" := "/env" ]}
                    dm6_config)).
    reflexivity.
  - apply (proj1 (proj2 (references_dir_precedence doc_bowtie2_suffix
                           doc_hisat2_suffix ∅ dm6_config))); reflexivity.
  - apply (proj2 (proj2 (references_dir_precedence doc_bowtie2_suffix
                           doc_hisat2_suffix ∅ dm6_nodir))); reflexivity.
Defined.

Lemma fasta_block_has_chromsizes_witness :
  table_get
    (table_of (config_to_dict doc_bowtie2_suffix doc_hisat2_suffix ∅
                 dm6_plain_config))
    "dm6" "default" "chromsizes"
  = Some "/data/dm6/fasta/dm6_default.chromsizes".
Proof.
  apply (fasta_block_has_chromsizes doc_bowtie2_suffix doc_hisat2_suffix
           ∅ dm6_plain_config "/data" _ dm6_plain).
  - vm_compute. reflexivity.
  - reflexivity.
  - left.
  - reflexivity.
Defined.

(** * Properties of [download_and_postprocess] *)

Section PipelineFacts.

Variable wget_fails : string → bool.
Variable resolve_name : pyval → result postprocessor.

Local Abbreviation materialize :=
  (download_and_postprocess wget_fails resolve_name).
Local Abbreviation run := (fetch_and_run wget_fails).

(** *** The lookup keyed by [(assembly, tag)] *)

Lemma build_lookup_hit (refs : list block) (d : gmap (string * string) block) b :
  b ∈ refs → is_Some (d !! (b_assembly b, fill_tag b)) →
  ∃ b', b' ∈ refs
        ∧ build_lookup refs d
          = Raise (ValueError
                     (key_exists_msg (b_assembly b') (fill_tag b'))).
Proof.
  revert d. induction refs as [|b0 refs IH]; intros d Hb Hd; simpl.
  - by apply elem_of_nil in Hb.
  - destruct (decide _) as [|Hnone].
    + exists b0. split; [left|done].
    + apply elem_of_cons in Hb as [->|Hb]; [done|].
      destruct (IH (<[(b_assembly b0, fill_tag b0) := b0]> d) Hb)
        as (b' & Hb' & ->).
      * rewrite lookup_insert. by destruct (decide _).
      * exists b'. split; [by right|done].
Qed.

Lemma build_lookup_duplicate (refs : list block) (d : gmap (string * string) block)
    i j bi bj :
  i < j → refs !! i = Some bi → refs !! j = Some bj → same_cell bi bj →
  ∃ b', b' ∈ refs
        ∧ build_lookup refs d
          = Raise (ValueError
                     (key_exists_msg (b_assembly b') (fill_tag b'))).
Proof.
  revert d i j. induction refs as [|b0 refs IH]; intros d i j Hij Hi Hj Hsame;
    [done|]. simpl.
  destruct (decide _) as [|Hnone]; [exists b0; split; [left|done]|].
  destruct j as [|j]; [lia|]. simpl in Hj.
  destruct i as [|i]; simpl in Hi.
  - injection Hi as ->. destruct Hsame as [Ha Ht].
    destruct (build_lookup_hit refs
                (<[(b_assembly bi, fill_tag bi) := bi]> d) bj)
      as (b' & Hb' & ->).
    + apply list_elem_of_lookup. by exists j.
    + rewrite <- Ha, <- Ht, lookup_insert_eq. by eexists.
    + exists b'. split; [by right|done].
  - destruct (IH (<[(b_assembly b0, fill_tag b0) := b0]> d) i j)
      as (b' & Hb' & ->); [lia|done..|].
    exists b'. split; [by right|done].
Qed.

(** *** Cleanup *)

Lemma cleanup_spec tmpfiles (fs : FS) :
  cleanup wget_fails tmpfiles fs = (Ok (), fs ∖ list_to_set tmpfiles).
Proof.
  revert fs. induction tmpfiles as [|i rest IH]; intros fs; simpl.
  - unfold ret. f_equal. set_solver.
  - unfold bind, path_exists.
    destruct (decide (i ∈ fs)) as [Hi|Hi].
    + rewrite bool_decide_eq_true_2 by done. unfold shell.
      rewrite decide_True by done. rewrite IH. f_equal. set_solver.
    + rewrite bool_decide_eq_false_2 by done. unfold ret.
      rewrite IH. f_equal. set_solver.
Qed.


(** *** The call as a whole *)

(** Once the block is found and its function resolved, the call is the
    download, the function and the cleanup. *)
Lemma download_and_postprocess_eq outfile cfg assembly tag d block spec func
    (fs : FS) :
  build_lookup (c_references cfg) ∅ = Ok d →
  relpath_check outfile cfg = Ok () →
  d !! (assembly, tag) = Some block →
  postprocess_spec (b_postprocess block) = Ok spec →
  resolve_func wget_fails resolve_name spec.1 = Ok func →
  materialize outfile cfg assembly tag fs = run outfile block func spec.2 fs.
Proof.
  intros Hd Hrel Hblock Hspec Hfunc.
  unfold download_and_postprocess, bind, lift.
  by rewrite Hd, Hrel, Hblock, Hspec, Hfunc.
Qed.



Lemma fetch_and_run_call outfile block func args extra (fs : FS) :
  star_args args = Ok extra →
  run outfile block func args fs
  = call_postprocess wget_fails outfile block func extra fs.
Proof.
  intros Hargs. unfold fetch_and_run, call_postprocess, bind, lift.
  destruct (download_all _ _ _ _) as [[[]|] fs1]; [|done]. by rewrite Hargs.
Qed.

(** C8. In a call that has found its block: an absent [postprocess] makes
    the call the one of the default function with no extra argument; a
    string, the one of the function resolved from that name with no extra
    argument; a mapping, the one of the function resolved from its
    [function] entry, with no extra argument when [args] is absent, the
    one string when [args] is a bare string, and the strings in order when
    [args] is a list of strings. *)
Theorem postprocess_normalized outfile cfg assembly tag d block (fs : FS) :
  build_lookup (c_references cfg) ∅ = Ok d →
  relpath_check outfile cfg = Ok () →
  d !! (assembly, tag) = Some block →
  (b_postprocess block = None →
   download_and_postprocess wget_fails resolve_name outfile cfg assembly tag fs
   = call_postprocess wget_fails outfile block
       (default_postprocess wget_fails) [] fs)
  ∧ (∀ s func,
       b_postprocess block = Some (PStr s) →
       resolve_name (PStr s) = Ok func →
       download_and_postprocess wget_fails resolve_name
         outfile cfg assembly tag fs
       = call_postprocess wget_fails outfile block func [] fs)
  ∧ (∀ kvs f func,
       b_postprocess block = Some (PDict kvs) →
       dict_get "function" kvs = Some f →
       resolve_name f = Ok func →
       (dict_get "args" kvs = None →
        download_and_postprocess wget_fails resolve_name
          outfile cfg assembly tag fs
        = call_postprocess wget_fails outfile block func [] fs)
       ∧ (∀ s, dict_get "args" kvs = Some (PStr s) →
               download_and_postprocess wget_fails resolve_name
                 outfile cfg assembly tag fs
               = call_postprocess wget_fails outfile block func [PStr s] fs)
       ∧ (∀ l, dict_get "args" kvs = Some (PList (PStr <$> l)) →
               download_and_postprocess wget_fails resolve_name
                 outfile cfg assembly tag fs
               = call_postprocess wget_fails outfile block func
                   (PStr <$> l) fs)).
Proof.
  intros Hd Hrel Hblock. split; [|split].
  - intros Hpp.
    rewrite (download_and_postprocess_eq _ _ _ _ d block (None, PTuple [])
               (default_postprocess wget_fails));
      [|done..|by rewrite Hpp|done].
    by apply fetch_and_run_call.
  - intros s func Hpp Hfunc.
    rewrite (download_and_postprocess_eq _ _ _ _ d block
               (Some (PStr s), PTuple []) func);
      [|done..|by rewrite Hpp|done].
    by apply fetch_and_run_call.
  - intros kvs f func Hpp Hf Hfunc.
    split; [|split]; [intros Hargs|intros s Hargs|intros l Hargs].
    + rewrite (download_and_postprocess_eq _ _ _ _ d block
                 (Some f, PTuple []) func); [|done..| |done].
      * by apply fetch_and_run_call.
      * rewrite Hpp. unfold postprocess_spec. by rewrite Hf, Hargs.
    + rewrite (download_and_postprocess_eq _ _ _ _ d block
                 (Some f, PTuple [PStr s]) func); [|done..| |done].
      * by apply fetch_and_run_call.
      * rewrite Hpp. unfold postprocess_spec. by rewrite Hf, Hargs.
    + rewrite (download_and_postprocess_eq _ _ _ _ d block
                 (Some f, PList (PStr <$> l)) func); [|done..| |done].
      * by apply fetch_and_run_call.
      * rewrite Hpp. unfold postprocess_spec. rewrite Hf, Hargs. simpl.
        by destruct l.
Qed.

(** C9. A [postprocess] mapping without the key [function] is itself the
    name handed to [resolve_name]: no exception names the missing key;
    the call fails, if it does, with what [resolve_name] raises on the
    mapping, before anything is downloaded, and otherwise goes on with
    the function it returned. *)
Theorem mapping_without_function kvs :
  dict_get "function" kvs = None →
  ∃ args,
    postprocess_spec (Some (PDict kvs)) = Ok (Some (PDict kvs), args)
    ∧ ∀ outfile cfg assembly tag d block (fs : FS),
        build_lookup (c_references cfg) ∅ = Ok d →
        relpath_check outfile cfg = Ok () →
        d !! (assembly, tag) = Some block →
        b_postprocess block = Some (PDict kvs) →
        match resolve_name (PDict kvs) with
        | Raise e =>
            download_and_postprocess wget_fails resolve_name
              outfile cfg assembly tag fs = (Raise e, fs)
        | Ok func =>
            download_and_postprocess wget_fails resolve_name
              outfile cfg assembly tag fs
            = fetch_and_run wget_fails outfile block func args fs
        end.
Proof.
  intros Hf.
  assert (∃ args, postprocess_spec (Some (PDict kvs))
                  = Ok (Some (PDict kvs), args)) as [args Hspec].
  { unfold postprocess_spec. rewrite Hf. by eexists. }
  exists args. split; [done|].
  intros outfile cfg assembly tag d block fs Hd Hrel Hblock Hpp.
  destruct (resolve_name (PDict kvs)) as [func|e] eqn:Hres.
  - apply (download_and_postprocess_eq _ _ _ _ d block (Some (PDict kvs), args));
      [done..|by rewrite Hpp|done].
  - unfold download_and_postprocess, bind, lift.
    rewrite Hd, Hrel, Hblock, Hpp, Hspec. simpl. by rewrite Hres.
Qed.

End PipelineFacts.

(** * The two uniqueness checks side by side *)

Section TwoLookups.

Variables bowtie2_suffix hisat2_suffix : string.
Variable wget_fails : string → bool.
Variable resolve_name : pyval → result postprocessor.

(** C2. Two blocks that share assembly and fill-in tag make the lookup of
    [download_and_postprocess] raise the duplicate-key [ValueError], for
    every call and whatever else the configuration holds; its message is
    the one of line 71 for the pair of a block of the list (stated for
    names in ASCII).  [config_to_dict] accepts the same configuration when
    the references directory is set, every requested kind is known, and no
    block's type is among the kinds (type, conversions, indexes,
    chromsizes) written by an earlier block of the same assembly and
    tag. *)
Theorem shared_tag_collides_in_lookup environ cfg i j bi bj :
  i ≠ j →
  c_references cfg !! i = Some bi →
  c_references cfg !! j = Some bj →
  same_cell bi bj →
  (∃ b msg,
     b ∈ c_references cfg
     ∧ (∀ outfile assembly tag (fs : FS),
          download_and_postprocess wget_fails resolve_name
            outfile cfg assembly tag fs
          = (Raise (ValueError msg), fs))
     ∧ (ascii_only (b_assembly b) = true → ascii_only (fill_tag b) = true →
        msg = key_exists_msg (b_assembly b) (fill_tag b)))
  ∧ (is_Some (get_references_dir environ cfg) →
     (∀ b, b ∈ c_references cfg →
           kinds_known bowtie2_suffix hisat2_suffix b = true) →
     (∀ i j bi bj, i < j →
                   c_references cfg !! i = Some bi →
                   c_references cfg !! j = Some bj →
                   same_cell bi bj → b_type bj ∉ block_kinds bi) →
     ∃ d, config_to_dict bowtie2_suffix hisat2_suffix environ cfg = Ok d).
Proof.
  intros Hij Hi Hj Hsame. split.
  - assert (∃ b, b ∈ c_references cfg
                 ∧ build_lookup (c_references cfg) ∅
                   = Raise (ValueError
                              (key_exists_msg (b_assembly b) (fill_tag b))))
      as (b & Hb & Hraise).
    { destruct (decide (i < j)).
      - by apply (build_lookup_duplicate _ _ i j bi bj).
      - apply (build_lookup_duplicate _ _ j i bj bi); [lia|done..|].
        destruct Hsame. by split. }
    exists b, (key_exists_msg (b_assembly b) (fill_tag b)).
    split; [done|]. split; [|done]. intros outfile assembly tag fs.
    unfold download_and_postprocess, bind, lift. by rewrite Hraise.
  - intros [rd Hrd] Hknown Hfree. unfold config_to_dict. rewrite Hrd.
    apply process_blocks_total; [done| |done].
    intros b _. unfold cell_of. by rewrite !lookup_empty.
Qed.

End TwoLookups.

(** The counterexample to C2 as stated: a fasta block and a block of type
    [chromsizes] share assembly and tag and differ in type, and
    [config_to_dict] rejects the second, whose type the first has already
    written into the cell. *)
Lemma shared_tag_rejected_by_both :
  same_cell dm6_plain dm6_sizes
  ∧ b_type dm6_plain ≠ b_type dm6_sizes
  ∧ config_to_dict doc_bowtie2_suffix doc_hisat2_suffix ∅ dm6_fasta_then_sizes
    = Raise (ValueError
               "tag default already exists for type chromsizes in assembly dm6").
Proof. split; [by split|]. split; [done|]. vm_compute. reflexivity. Qed.

Lemma shared_tag_collides_in_lookup_witness :
  (∃ b msg,
     b ∈ c_references dm6_fasta_then_gtf
     ∧ (∀ outfile assembly tag (fs : FS),
          download_and_postprocess all_fetched example_registry
            outfile dm6_fasta_then_gtf assembly tag fs
          = (Raise (ValueError msg), fs))
     ∧ (ascii_only (b_assembly b) = true → ascii_only (fill_tag b) = true →
        msg = key_exists_msg (b_assembly b) (fill_tag b)))
  ∧ ∃ d, config_to_dict doc_bowtie2_suffix doc_hisat2_suffix ∅
           dm6_fasta_then_gtf = Ok d.
Proof.
  destruct (shared_tag_collides_in_lookup doc_bowtie2_suffix
              doc_hisat2_suffix all_fetched example_registry ∅
              dm6_fasta_then_gtf 0 1 dm6_plain dm6_gtf)
    as [Hlookup Haccept].
  - lia.
  - reflexivity.
  - reflexivity.
  - split; reflexivity.
  - split; [exact Hlookup|]. apply Haccept.
    + exists "/data". reflexivity.
    + intros b Hb. change (b ∈ [dm6_plain; dm6_gtf]) in Hb.
      rewrite !elem_of_cons, elem_of_nil in Hb.
      destruct Hb as [->|[->|[]]]; reflexivity.
    + intros [|[|i]] [|[|j]] bi bj Hij Hi Hj _; try lia; try discriminate.
      injection Hi as <-. injection Hj as <-.
      apply (bool_decide_unpack _). vm_compute. exact I.
Defined.

(** The lookup raises on a duplicate triple too, where [config_to_dict]
    does not accept the configuration. *)
Example lookup_rejects_dm6_twice :
  download_and_postprocess all_fetched example_registry dm6_out
    dm6_twice "dm6" "r6-11" ∅
  = (Raise (ValueError "key ('dm6', 'r6-11') already exists"), ∅).
Proof. vm_compute. reflexivity. Qed.



Lemma postprocess_normalized_witness :
  download_and_postprocess all_fetched example_registry dm6_out
    (config_of (with_postprocess (PDict filter_foo) dm6_plain))
    "dm6" "default" ∅
  = call_postprocess all_fetched dm6_out
      (with_postprocess (PDict filter_foo) dm6_plain)
      writing_postprocess [PStr "FOO"] ∅.
Proof.
  refine (proj1 (proj2 (proj2 (proj2
            (postprocess_normalized all_fetched example_registry dm6_out
               (config_of (with_postprocess (PDict filter_foo) dm6_plain))
               "dm6" "default"
               {[ ("dm6", "default") :=
                    with_postprocess (PDict filter_foo) dm6_plain ]}
               (with_postprocess (PDict filter_foo) dm6_plain) ∅ _ _ _))
            filter_foo (PStr "lib.postprocess.write") writing_postprocess
            _ _ _)) "FOO" _); vm_compute; reflexivity.
Defined.

Lemma mapping_without_function_witness :
  download_and_postprocess all_fetched example_registry
    "/data/dm6/fasta/dm6_default.fasta"
    (config_of (with_postprocess (PDict args_only) dm6_plain))
    "dm6" "default" ∅
  = (Raise (TypeError "name must be a string"), ∅).
Proof.
  destruct (mapping_without_function all_fetched example_registry
              args_only eq_refl) as (args & _ & H).
  refine (H "/data/dm6/fasta/dm6_default.fasta"
            (config_of (with_postprocess (PDict args_only) dm6_plain))
            "dm6" "default"
            {[ ("dm6", "default") :=
                 with_postprocess (PDict args_only) dm6_plain ]}
            (with_postprocess (PDict args_only) dm6_plain) ∅ _ _ _ _);
    vm_compute; reflexivity.
Defined.

(** * Further properties of [config_to_dict] *)

Section PathTableFacts.

Variables bowtie2_suffix hisat2_suffix : string.

Local Abbreviation index_exts := (index_extensions bowtie2_suffix hisat2_suffix).
Local Abbreviation add_idx := (add_indexes bowtie2_suffix hisat2_suffix).
Local Abbreviation entries := (cell_entries bowtie2_suffix hisat2_suffix).
Local Abbreviation step := (process_block bowtie2_suffix hisat2_suffix).
Local Abbreviation steps := (process_blocks bowtie2_suffix hisat2_suffix).
Local Abbreviation resolve := (config_to_dict bowtie2_suffix hisat2_suffix).
Local Abbreviation known := (kinds_known bowtie2_suffix hisat2_suffix).

(** *** The values written by the two loops *)

Lemma add_conversions_lookup rd a t ty l (e e' : cell) k :
  add_conversions rd a t ty l e = Ok e' → k ∈ l →
  ∃ ext, conversion_extensions !! k = Some ext
         ∧ e' !! k = Some (conversion_path rd a t ty ext).
Proof.
  revert e. induction l as [|k' l IH]; intros e; simpl.
  - intros _ Hk. by apply elem_of_nil in Hk.
  - destruct (conversion_extensions !! k') as [ext|] eqn:Hext; [|done].
    intros H Hk. destruct (decide (k ∈ l)) as [Hin|Hnotin]; [by eapply IH|].
    apply elem_of_cons in Hk as [->|Hk]; [|done].
    exists ext. split; [done|].
    rewrite (add_conversions_other _ _ _ _ _ _ _ _ H Hnotin).
    apply lookup_insert_eq.
Qed.

Lemma add_indexes_lookup rd a t l (e e' : cell) k :
  add_idx rd a t l e = Ok e' → k ∈ l →
  ∃ ext, index_exts !! k = Some ext
         ∧ e' !! k = Some (index_path rd a t k ext).
Proof.
  revert e. induction l as [|k' l IH]; intros e; simpl.
  - intros _ Hk. by apply elem_of_nil in Hk.
  - destruct (index_exts !! k') as [ext|] eqn:Hext; [|done].
    intros H Hk. destruct (decide (k ∈ l)) as [Hin|Hnotin]; [by eapply IH|].
    apply elem_of_cons in Hk as [->|Hk]; [|done].
    exists ext. split; [done|].
    rewrite (add_indexes_other _ _ _ _ _ _ _ _ _ H Hnotin).
    apply lookup_insert_eq.
Qed.

Lemma add_conversions_shape rd a t ty l (e e' : cell) k p :
  add_conversions rd a t ty l e = Ok e' → e' !! k = Some p →
  e !! k = Some p ∨ well_shaped rd a t p.
Proof.
  intros H Hp. destruct (decide (k ∈ l)) as [Hin|Hnotin].
  - destruct (add_conversions_lookup _ _ _ _ _ _ _ _ H Hin) as (ext & _ & Hk).
    rewrite Hk in Hp. injection Hp as <-. right. by exists ty, ext.
  - left. by rewrite <- (add_conversions_other _ _ _ _ _ _ _ _ H Hnotin).
Qed.

Lemma add_indexes_shape rd a t l (e e' : cell) k p :
  add_idx rd a t l e = Ok e' → e' !! k = Some p →
  e !! k = Some p ∨ well_shaped rd a t p.
Proof.
  intros H Hp. destruct (decide (k ∈ l)) as [Hin|Hnotin].
  - destruct (add_indexes_lookup _ _ _ _ _ _ _ H Hin) as (ext & _ & Hk).
    rewrite Hk in Hp. injection Hp as <-. right. by exists k, ext.
  - left. by rewrite <- (add_indexes_other _ _ _ _ _ _ _ _ _ H Hnotin).
Qed.

(** *** What a block writes, key by key *)

Ltac by_type b :=
  destruct (decide (b_type b = "gtf")) as [Hgtf|Hgtf];
  destruct (decide (b_type b = "fasta")) as [Hfasta|Hfasta];
  [ exfalso; rewrite Hgtf in Hfasta; discriminate | | | ].

Lemma block_kinds_cases b k :
  known b = true → k ∈ block_kinds b →
  k = b_type b
  ∨ (b_type b = "gtf" ∧ is_Some (conversion_extensions !! k))
  ∨ (b_type b = "fasta" ∧ (is_Some (index_exts !! k) ∨ k = "chromsizes")).
Proof.
  unfold kinds_known, block_kinds. by_type b; simpl.
  - rewrite andb_true_r, app_nil_r, elem_of_cons. intros Hk [->|Hin]; [by left|].
    right. left. split; [done|].
    rewrite forallb_forall in Hk. apply list_elem_of_In, Hk in Hin.
    by apply bool_decide_eq_true in Hin.
  - rewrite elem_of_cons, elem_of_app, list_elem_of_singleton.
    intros Hk [->|[Hin| ->]]; [by left|right; right..]; (split; [done|]).
    + left. rewrite forallb_forall in Hk. apply list_elem_of_In, Hk in Hin.
      by apply bool_decide_eq_true in Hin.
    + by right.
  - rewrite list_elem_of_singleton. intros _ ->. by left.
Qed.

Lemma cell_entries_other rd b (e e' : cell) k :
  entries rd b e = Ok e' → k ∉ block_kinds b → e' !! k = e !! k.
Proof.
  intros H Hk. pose proof (cell_entries_dom _ _ _ _ _ _ H) as Hdom.
  assert (k ≠ b_type b) as Hty.
  { intros ->. apply Hk. unfold block_kinds. left. }
  revert H Hk. unfold cell_entries, block_kinds. by_type b; simpl.
  - rewrite app_nil_r, not_elem_of_cons.
    destruct (add_conversions _ _ _ _ _ _) as [e1|] eqn:H1; simpl; [|done].
    intros [= <-] [_ Hk].
    rewrite (add_conversions_other _ _ _ _ _ _ _ _ H1 Hk).
    by rewrite lookup_insert_ne.
  - rewrite not_elem_of_cons, not_elem_of_app, list_elem_of_singleton.
    destruct (add_indexes _ _ _ _ _ _ _) as [e1|] eqn:H1; simpl; [|done].
    intros [= <-] (_ & Hk & Hc).
    rewrite lookup_insert_ne by done.
    rewrite (add_indexes_other _ _ _ _ _ _ _ _ _ H1 Hk).
    by rewrite lookup_insert_ne.
  - intros [= <-] _. by rewrite lookup_insert_ne.
Qed.

(** The entry of the block's own type is written first and not overwritten
    by the block's own conversions, indexes or [chromsizes]. *)
Lemma cell_entries_type rd b (e e' : cell) :
  entries rd b e = Ok e' →
  e' !! b_type b
  = Some (type_path rd (b_assembly b) (fill_tag b) (b_type b)).
Proof.
  unfold cell_entries. by_type b; simpl.
  - destruct (add_conversions _ _ _ _ _ _) as [e1|] eqn:H1; simpl; [|done].
    intros [= <-].
    pose proof (add_conversions_known _ _ _ _ _ _ _ H1) as Hk.
    rewrite (add_conversions_other _ _ _ _ _ _ _ _ H1);
      [apply lookup_insert_eq|].
    intros Hin. rewrite Forall_forall in Hk.
    apply Hk, conversion_extensions_keys in Hin. rewrite Hgtf in Hin.
    naive_solver.
  - destruct (add_indexes _ _ _ _ _ _ _) as [e1|] eqn:H1; simpl; [|done].
    intros [= <-].
    pose proof (add_indexes_known _ _ _ _ _ _ _ _ H1) as Hk.
    rewrite lookup_insert_ne by (by rewrite Hfasta).
    rewrite (add_indexes_other _ _ _ _ _ _ _ _ _ H1);
      [apply lookup_insert_eq|].
    intros Hin. rewrite Forall_forall in Hk.
    apply Hk, index_extensions_keys in Hin. rewrite Hfasta in Hin.
    naive_solver.
  - intros [= <-]. apply lookup_insert_eq.
Qed.

Lemma cell_entries_shape rd b (e e' : cell) k p :
  entries rd b e = Ok e' → e' !! k = Some p →
  e !! k = Some p ∨ well_shaped rd (b_assembly b) (fill_tag b) p.
Proof.
  unfold cell_entries.
  assert (∀ e0 : cell,
            <[b_type b := type_path rd (b_assembly b) (fill_tag b) (b_type b)]> e
              !! k = Some p → e0 = e →
            e !! k = Some p ∨ well_shaped rd (b_assembly b) (fill_tag b) p)
    as Hfirst.
  { intros e0 Hp _. apply lookup_insert_Some in Hp as [[_ <-]|[_ Hp]].
    - right. by exists (b_type b), ("." +:+ b_type b).
    - by left. }
  by_type b; simpl.
  - destruct (add_conversions _ _ _ _ _ _) as [e1|] eqn:H1; simpl; [|done].
    intros [= <-] Hp.
    destruct (add_conversions_shape _ _ _ _ _ _ _ _ _ H1 Hp) as [Hp'|?];
      [by eapply Hfirst|by right].
  - destruct (add_indexes _ _ _ _ _ _ _) as [e1|] eqn:H1; simpl; [|done].
    intros [= <-] Hp. apply lookup_insert_Some in Hp as [[_ <-]|[_ Hp]].
    + right. by exists (b_type b), ".chromsizes".
    + destruct (add_indexes_shape _ _ _ _ _ _ _ _ H1 Hp) as [Hp'|?];
        [by eapply Hfirst|by right].
  - intros [= <-] Hp. by eapply Hfirst.
Qed.

Lemma cell_entries_requested rd b (e e' : cell) k :
  entries rd b e = Ok e' →
  (b_type b = "fasta" → k ∈ default [] (b_indexes b) →
   ∃ ext, index_extensions bowtie2_suffix hisat2_suffix !! k = Some ext
          ∧ e' !! k
            = Some (index_path rd (b_assembly b) (fill_tag b) k ext))
  ∧ (b_type b = "gtf" → k ∈ default [] (b_conversions b) →
     ∃ ext, conversion_extensions !! k = Some ext
            ∧ e' !! k
              = Some (conversion_path rd (b_assembly b) (fill_tag b) "gtf" ext)).
Proof.
  intros H. split; intros Hty Hk; revert H; unfold cell_entries;
    rewrite Hty; simpl.
  - destruct (add_indexes _ _ _ _ _ _ _) as [e1|] eqn:H1; simpl; [|done].
    intros [= <-].
    destruct (add_indexes_lookup _ _ _ _ _ _ _ H1 Hk) as (ext & Hext & He1).
    exists ext. split; [done|]. rewrite lookup_insert_ne; [done|].
    intros <-.
    by destruct (proj1 (index_extensions_keys _ _ _) (mk_is_Some _ _ Hext))
      as [?|[?|?]].
  - destruct (add_conversions _ _ _ _ _ _) as [e1|] eqn:H1; simpl; [|done].
    intros [= <-]. by apply (add_conversions_lookup _ _ _ _ _ _ _ _ H1).
Qed.

(** *** The loop body, key by key *)

Lemma process_block_other_key rd (d d' : table) b a t k :
  step rd d b = Ok d' →
  (a, t) ≠ (b_assembly b, fill_tag b) ∨ k ∉ block_kinds b →
  cell_of d' a t !! k = cell_of d a t !! k.
Proof.
  intros (_ & He & Hother)%process_block_ok Hcase.
  destruct (decide ((a, t) = (b_assembly b, fill_tag b))) as [[= -> ->]|Hne];
    [|by rewrite Hother].
  destruct Hcase as [?|Hk]; [done|]. by apply (cell_entries_other _ _ _ _ _ He).
Qed.

Lemma process_block_known rd (d d' : table) b :
  step rd d b = Ok d' → known b = true.
Proof.
  intros (_ & He & _)%process_block_ok. by eapply cell_entries_known.
Qed.

(** A key that no loop can write stays as it is in every later block. *)
Lemma process_block_keeps rd (d d' : table) b a t k v :
  step rd d b = Ok d' →
  cell_of d a t !! k = Some v → k ∉ derived_kinds →
  cell_of d' a t !! k = Some v.
Proof.
  intros H Hv Hk. rewrite <- Hv. apply (process_block_other_key _ _ _ _ _ _ _ H).
  destruct (decide ((a, t) = (b_assembly b, fill_tag b))) as [[= -> ->]|Hne];
    [right|by left].
  intros Hin.
  pose proof (process_block_ok _ _ _ _ _ _ H) as (Hnone & _ & _).
  apply block_kinds_cases in Hin as [->|[[_ Hc]|[_ [Hi| ->]]]];
    [by rewrite Hv in Hnone| | | |by eapply process_block_known].
  - apply conversion_extensions_keys in Hc. apply Hk. unfold derived_kinds.
    set_solver.
  - apply index_extensions_keys in Hi. apply Hk. unfold derived_kinds.
    set_solver.
  - apply Hk. unfold derived_kinds. set_solver.
Qed.

Lemma process_blocks_keeps rd bs (d d' : table) a t k v :
  steps rd bs d = Ok d' →
  cell_of d a t !! k = Some v → k ∉ derived_kinds →
  cell_of d' a t !! k = Some v.
Proof.
  revert d. induction bs as [|b bs IH]; intros d; simpl.
  - by intros [= ->].
  - destruct (step rd d b) as [d1|] eqn:H1; simpl; [|done].
    intros H Hv Hk. apply (IH _ H); [|done].
    by apply (process_block_keeps _ _ _ _ _ _ _ _ H1).
Qed.

(** An index entry in a cell that has the key [fasta], and a conversion
    entry in a cell that has the key [gtf], stay as they are in every later
    block. *)
Lemma process_block_guarded rd (d d' : table) b a t g k v :
  step rd d b = Ok d' →
  is_Some (cell_of d a t !! g) →
  cell_of d a t !! k = Some v →
  (g = "fasta" ∧ is_Some (index_extensions bowtie2_suffix hisat2_suffix !! k))
  ∨ (g = "gtf" ∧ is_Some (conversion_extensions !! k)) →
  is_Some (cell_of d' a t !! g) ∧ cell_of d' a t !! k = Some v.
Proof.
  intros H Hg Hv Hcase. split.
  { apply (process_block_kinds _ _ _ _ _ _ _ _ _ H). by left. }
  rewrite <- Hv. apply (process_block_other_key _ _ _ _ _ _ _ H).
  destruct (decide ((a, t) = (b_assembly b, fill_tag b))) as [[= -> ->]|Hne];
    [right|by left].
  intros Hin.
  pose proof (process_block_ok _ _ _ _ _ _ H) as (Hnone & _ & _).
  assert (b_type b ≠ g) as Hbg.
  { intros <-. rewrite Hnone in Hg. by destruct Hg. }
  apply block_kinds_cases in Hin as [->|[[Hb Hc]|[Hb Hi]]];
    [by rewrite Hv in Hnone| | |by eapply process_block_known].
  - apply conversion_extensions_keys in Hc.
    destruct Hcase as [[-> Hi]|[-> _]]; [|done].
    apply index_extensions_keys in Hi. naive_solver.
  - destruct Hcase as [[-> _]|[-> Hc]]; [done|].
    apply conversion_extensions_keys in Hc.
    destruct Hi as [Hi| ->]; [|naive_solver].
    apply index_extensions_keys in Hi. naive_solver.
Qed.

Lemma process_blocks_guarded rd bs (d d' : table) a t g k v :
  steps rd bs d = Ok d' →
  is_Some (cell_of d a t !! g) →
  cell_of d a t !! k = Some v →
  (g = "fasta" ∧ is_Some (index_extensions bowtie2_suffix hisat2_suffix !! k))
  ∨ (g = "gtf" ∧ is_Some (conversion_extensions !! k)) →
  cell_of d' a t !! k = Some v.
Proof.
  revert d. induction bs as [|b bs IH]; intros d; simpl.
  - by intros [= ->].
  - destruct (step rd d b) as [d1|] eqn:H1; simpl; [|done].
    intros H Hg Hv Hcase.
    destruct (process_block_guarded _ _ _ _ _ _ _ _ _ H1 Hg Hv Hcase).
    by apply (IH _ H).
Qed.

Lemma process_block_shape rd (d d' : table) b :
  step rd d b = Ok d' →
  (∀ a t k p, cell_of d a t !! k = Some p → well_shaped rd a t p) →
  ∀ a t k p, cell_of d' a t !! k = Some p → well_shaped rd a t p.
Proof.
  intros (_ & He & Hother)%process_block_ok Hd a t k p.
  destruct (decide ((a, t) = (b_assembly b, fill_tag b))) as [[= -> ->]|Hne].
  - intros Hp. destruct (cell_entries_shape _ _ _ _ _ _ He Hp); [|done].
    by eapply Hd.
  - rewrite (Hother _ _ Hne). apply Hd.
Qed.

Lemma process_blocks_shape rd bs (d d' : table) :
  steps rd bs d = Ok d' →
  (∀ a t k p, cell_of d a t !! k = Some p → well_shaped rd a t p) →
  ∀ a t k p, cell_of d' a t !! k = Some p → well_shaped rd a t p.
Proof.
  revert d. induction bs as [|b bs IH]; intros d; simpl.
  - by intros [= ->].
  - destruct (step rd d b) as [d1|] eqn:H1; simpl; [|done].
    intros H Hd. apply (IH _ H). by apply (process_block_shape _ _ _ _ H1).
Qed.

Lemma process_blocks_no_collision rd bs (d d' : table) :
  steps rd bs d = Ok d' → no_collision bs.
Proof.
  intros H i j bi bj Hij Hi Hj [Ha Ht] Hin.
  assert (steps rd bs d = steps rd (take j bs ++ bj :: drop (S j) bs) d)
    as Hsplit by (by rewrite take_drop_middle).
  rewrite Hsplit, process_blocks_app in H.
  destruct (steps rd (take j bs) d) as [d1|] eqn:H1; simpl in H; [|done].
  rewrite process_block_duplicate in H; [done|].
  apply (process_blocks_kinds _ _ _ _ _ _ _ _ _ H1). right.
  exists bi. split; [|done].
  apply list_elem_of_lookup. exists i. by rewrite lookup_take_lt.
Qed.

(** An accepted list, cut at one of its blocks. *)
Lemma process_blocks_split rd bs (d d' : table) b :
  steps rd bs d = Ok d' → b ∈ bs →
  ∃ (l1 l2 : list block) (d1 d2 : table),
    bs = (l1 ++ b :: l2)%list
    ∧ steps rd l1 d = Ok d1 ∧ step rd d1 b = Ok d2 ∧ steps rd l2 d2 = Ok d'.
Proof.
  intros H (l1 & l2 & ->)%list_elem_of_split.
  rewrite process_blocks_app in H.
  destruct (steps rd l1 d) as [d1|] eqn:H1; simpl in H; [|done].
  destruct (step rd d1 b) as [d2|] eqn:H2; simpl in H; [|done].
  by exists l1, l2, d1, d2.
Qed.

(** *** Properties of the resolved table *)

(** X1. [config_to_dict] returns a table exactly when the references
    directory is known, every block's requested kinds are known, and no
    block's type is among the kinds written by an earlier block of the same
    assembly and tag. *)
Theorem accepted_iff environ cfg :
  (∃ d, config_to_dict bowtie2_suffix hisat2_suffix environ cfg = Ok d)
  ↔ is_Some (get_references_dir environ cfg)
    ∧ (∀ b, b ∈ c_references cfg →
            kinds_known bowtie2_suffix hisat2_suffix b = true)
    ∧ no_collision (c_references cfg).
Proof.
  unfold config_to_dict. split.
  - intros [d H]. destruct (get_references_dir environ cfg) as [rd|]; [|done].
    split; [done|]. split.
    + intros b. by apply (process_blocks_known _ _ _ _ _ _ _ H).
    + by apply (process_blocks_no_collision _ _ _ _ H).
  - intros ([rd ->] & Hknown & Hfree).
    apply process_blocks_total; [done| |done].
    intros b _. unfold cell_of. by rewrite !lookup_empty.
Qed.

(** X2. The resolved table has an entry for a kind under an assembly and a
    tag exactly when some block of that assembly and fill-in tag writes that
    kind: nothing else is in the table. *)
Theorem table_entries_from_blocks environ cfg (d : table) a t k :
  config_to_dict bowtie2_suffix hisat2_suffix environ cfg = Ok d →
  is_Some (table_get d a t k)
  ↔ ∃ b, b ∈ c_references cfg
         ∧ a = b_assembly b ∧ t = fill_tag b ∧ k ∈ block_kinds b.
Proof.
  unfold config_to_dict.
  destruct (get_references_dir environ cfg) as [rd|]; [|done].
  intros H. rewrite table_get_cell_of.
  rewrite (process_blocks_kinds _ _ _ _ _ _ _ _ _ H).
  unfold cell_of at 1. rewrite !lookup_empty. simpl. rewrite lookup_empty.
  split; [|by right]. intros [[? ?]|?]; done.
Qed.

(** X3. Every path of the resolved table has the form
    [{references_dir}/{assembly}/{dir}/{assembly}_{tag}{suffix}] for the
    assembly and tag it is stored under. *)
Theorem paths_well_shaped environ cfg rd (d : table) a t k p :
  config_to_dict bowtie2_suffix hisat2_suffix environ cfg = Ok d →
  get_references_dir environ cfg = Some rd →
  table_get d a t k = Some p →
  well_shaped rd a t p.
Proof.
  unfold config_to_dict. intros H Hrd. rewrite Hrd in H.
  rewrite table_get_cell_of.
  apply (process_blocks_shape _ _ _ _ H).
  intros a' t' k' p'. unfold cell_of. by rewrite !lookup_empty.
Qed.

(** X4. In the resolved table the entry of a block's own type is
    [{references_dir}/{assembly}/{type}/{assembly}_{tag}.{type}], for every
    block whose type is not the name of an index, of a conversion, or
    [chromsizes]. *)
Theorem own_type_entry environ cfg rd (d : table) b :
  config_to_dict bowtie2_suffix hisat2_suffix environ cfg = Ok d →
  get_references_dir environ cfg = Some rd →
  b ∈ c_references cfg →
  b_type b ∉ derived_kinds →
  table_get d (b_assembly b) (fill_tag b) (b_type b)
  = Some (type_path rd (b_assembly b) (fill_tag b) (b_type b)).
Proof.
  unfold config_to_dict. intros H Hrd Hb Hty. rewrite Hrd in H.
  rewrite table_get_cell_of.
  destruct (process_blocks_split _ _ _ _ _ H Hb)
    as (l1 & l2 & d1 & d2 & _ & _ & H2 & H3).
  apply (process_blocks_keeps _ _ _ _ _ _ _ _ H3); [|done].
  apply process_block_ok in H2 as (_ & He & _).
  by apply (cell_entries_type _ _ _ _ He).
Qed.

(** X5. In the resolved table every index requested by a fasta block is at
    [{references_dir}/{assembly}/{index}/{assembly}_{tag}{ext}], and every
    conversion requested by a gtf block at
    [{references_dir}/{assembly}/gtf/{assembly}_{tag}{ext}], with [ext]
    from the extension table. *)
Theorem requested_entries environ cfg rd (d : table) b k :
  config_to_dict bowtie2_suffix hisat2_suffix environ cfg = Ok d →
  get_references_dir environ cfg = Some rd →
  b ∈ c_references cfg →
  (b_type b = "fasta" → k ∈ default [] (b_indexes b) →
   ∃ ext, index_extensions bowtie2_suffix hisat2_suffix !! k = Some ext
          ∧ table_get d (b_assembly b) (fill_tag b) k
            = Some (index_path rd (b_assembly b) (fill_tag b) k ext))
  ∧ (b_type b = "gtf" → k ∈ default [] (b_conversions b) →
     ∃ ext, conversion_extensions !! k = Some ext
            ∧ table_get d (b_assembly b) (fill_tag b) k
              = Some (conversion_path rd (b_assembly b) (fill_tag b)
                        "gtf" ext)).
Proof.
  unfold config_to_dict. intros H Hrd Hb. rewrite Hrd in H.
  rewrite !table_get_cell_of.
  destruct (process_blocks_split _ _ _ _ _ H Hb)
    as (l1 & l2 & d1 & d2 & _ & _ & H2 & H3).
  apply process_block_ok in H2 as (_ & He & _).
  pose proof (cell_entries_type _ _ _ _ He) as Hown.
  destruct (cell_entries_requested _ _ _ _ k He) as [Hidx Hconv].
  split; intros Hty Hk.
  - destruct (Hidx Hty Hk) as (ext & Hext & Hv). exists ext. split; [done|].
    apply (process_blocks_guarded _ _ _ _ _ _ "fasta" _ _ H3); [|done|].
    + rewrite <- Hty, Hown. by eexists.
    + left. split; [done|by eexists].
  - destruct (Hconv Hty Hk) as (ext & Hext & Hv). exists ext. split; [done|].
    apply (process_blocks_guarded _ _ _ _ _ _ "gtf" _ _ H3); [|done|].
    + rewrite <- Hty, Hown. by eexists.
    + right. split; [done|by eexists].
Qed.

Lemma process_blocks_filter rd bs (d0 d0' d : table) a t :
  steps rd bs d0 = Ok d →
  cell_of d0' a t = cell_of d0 a t →
  ∃ d', steps rd (filter (λ b, block_key b = (a, t)) bs) d0' = Ok d'
        ∧ cell_of d' a t = cell_of d a t.
Proof.
  revert d0 d0'. induction bs as [|b bs IH]; intros d0 d0'; simpl.
  - intros [= ->] Heq. by exists d0'.
  - destruct (step rd d0 b) as [d1|] eqn:H1; simpl; [|done].
    intros H Heq. destruct (decide (block_key b = (a, t))) as [Hkey|Hkey].
    + rewrite filter_cons_True by done. simpl.
      injection Hkey as <- <-.
      pose proof H1 as H1'. rewrite process_block_eq in H1'. simpl in H1'.
      rewrite process_block_eq. simpl. rewrite Heq.
      destruct (decide _); [done|].
      destruct (cell_entries _ _ _ _ _) as [e'|]; simpl in *; [|done].
      injection H1' as <-. apply (IH _ _ H).
      by rewrite !cell_of_insert_same.
    + rewrite filter_cons_False by done. apply (IH _ _ H).
      rewrite Heq. symmetry.
      apply process_block_ok in H1 as (_ & _ & Hother). apply Hother.
      intros Heq'. apply Hkey. by rewrite Heq'.
Qed.

(** X6. The entries under an assembly and a tag depend only on the blocks
    of that assembly and fill-in tag: the configuration restricted to these
    blocks is accepted as well and gives the same entries. *)
Theorem cell_depends_on_own_blocks environ cfg (d : table) a t :
  config_to_dict bowtie2_suffix hisat2_suffix environ cfg = Ok d →
  ∃ d', config_to_dict bowtie2_suffix hisat2_suffix environ
          {| c_references_dir := c_references_dir cfg;
             c_references :=
               filter (λ b, block_key b = (a, t)) (c_references cfg) |}
        = Ok d'
        ∧ ∀ k, table_get d' a t k = table_get d a t k.
Proof.
  unfold config_to_dict, get_references_dir. simpl.
  destruct (match environ !! "REFERENCES_DIR" with
            | Some r => Some r
            | None => c_references_dir cfg
            end) as [rd|]; [|done].
  intros H. destruct (process_blocks_filter _ _ _ ∅ _ a t H eq_refl)
    as (d' & Hd' & Heq).
  exists d'. split; [done|]. intros k. by rewrite !table_get_cell_of, Heq.
Qed.

End PathTableFacts.

Lemma table_entries_from_blocks_witness :
  is_Some (table_get doctest_table "dm6" "default" "refflat")
  ↔ ∃ b, b ∈ c_references doctest_config
         ∧ "dm6" = b_assembly b ∧ "default" = fill_tag b
         ∧ "refflat" ∈ block_kinds b.
Proof.
  apply (table_entries_from_blocks doc_bowtie2_suffix doc_hisat2_suffix
           ∅ doctest_config doctest_table "dm6" "default" "refflat").
  vm_compute. reflexivity.
Defined.

Lemma paths_well_shaped_witness :
  well_shaped "/data" "dm6" "r6-11" "/data/dm6/bowtie2/dm6_r6-11.1.bt2".
Proof.
  apply (paths_well_shaped doc_bowtie2_suffix doc_hisat2_suffix
           ∅ doctest_config "/data" doctest_table "dm6" "r6-11" "bowtie2");
    vm_compute; reflexivity.
Defined.

Lemma own_type_entry_witness :
  table_get
    (table_of (config_to_dict doc_bowtie2_suffix doc_hisat2_suffix ∅
                 dm6_fasta_then_gtf))
    "dm6" "default" "gtf"
  = Some "/data/dm6/gtf/dm6_default.gtf".
Proof.
  apply (own_type_entry doc_bowtie2_suffix doc_hisat2_suffix
           ∅ dm6_fasta_then_gtf "/data" _ dm6_gtf).
  - vm_compute. reflexivity.
  - reflexivity.
  - right. left.
  - apply (bool_decide_unpack _). vm_compute. exact I.
Defined.

Lemma requested_entries_witness :
  (∃ ext, index_extensions doc_bowtie2_suffix doc_hisat2_suffix !! "bowtie2"
          = Some ext
          ∧ table_get (dm6_table doc_bowtie2_suffix) "dm6" "r6-11" "bowtie2"
            = Some (index_path "/data" "dm6" "r6-11" "bowtie2" ext))
  ∧ (∃ ext, conversion_extensions !! "refflat" = Some ext
            ∧ table_get
                (table_of (config_to_dict doc_bowtie2_suffix doc_hisat2_suffix
                             ∅ dm6_fasta_then_gtf))
                "dm6" "default" "refflat"
              = Some (conversion_path "/data" "dm6" "default" "gtf" ext)).
Proof.
  split.
  - refine (proj1 (requested_entries doc_bowtie2_suffix doc_hisat2_suffix
                     ∅ dm6_config "/data" (dm6_table doc_bowtie2_suffix)
                     dm6_r6_11 "bowtie2" _ _ _) _ _).
    + vm_compute. reflexivity.
    + reflexivity.
    + left.
    + reflexivity.
    + left.
  - refine (proj2 (requested_entries doc_bowtie2_suffix doc_hisat2_suffix
                     ∅ dm6_fasta_then_gtf "/data" _ dm6_gtf "refflat" _ _ _)
              _ _).
    + vm_compute. reflexivity.
    + reflexivity.
    + right. left.
    + reflexivity.
    + left.
Defined.

Lemma cell_depends_on_own_blocks_witness :
  ∃ d', config_to_dict doc_bowtie2_suffix doc_hisat2_suffix ∅
          {| c_references_dir := c_references_dir doctest_config;
             c_references :=
               filter (λ b, block_key b = ("dm6", "r6-11"))
                 (c_references doctest_config) |}
        = Ok d'
        ∧ ∀ k, table_get d' "dm6" "r6-11" k
               = table_get doctest_table "dm6" "r6-11" k.
Proof.
  apply (cell_depends_on_own_blocks doc_bowtie2_suffix doc_hisat2_suffix
           ∅ doctest_config doctest_table "dm6" "r6-11").
  vm_compute. reflexivity.
Defined.

(** * Further properties of [download_and_postprocess] *)

(** *** Names of the temporary files *)

Lemma string_length_app s1 s2 :
  String.length (s1 +:+ s2) = String.length s1 + String.length s2.
Proof. induction s1 as [|c s1 IH]; simpl; [done|by rewrite IH]. Qed.

Lemma string_app_inj_r s1 s2 t : s1 +:+ t = s2 +:+ t → s1 = s2.
Proof.
  revert s2. induction s1 as [|c s1 IH]; intros [|c' s2] H; [done|..].
  - apply (f_equal String.length) in H.
    rewrite !string_length_app in H. simpl in H. lia.
  - apply (f_equal String.length) in H.
    rewrite !string_length_app in H. simpl in H. lia.
  - simpl in H. injection H as -> H. f_equal. by apply IH.
Qed.

Lemma tmpfile_name_inj outfile i j :
  tmpfile_name outfile i = tmpfile_name outfile j → i = j.
Proof.
  unfold tmpfile_name. intros H.
  apply (inj (String.app outfile)), (inj (String.app ".")) in H.
  apply string_app_inj_r in H.
  apply Unsigned.to_uint_inj.
  apply (f_equal NilEmpty.uint_of_string) in H.
  rewrite !NilEmpty.usu in H. by injection H.
Qed.

Lemma tmpfile_name_not_outfile outfile i : tmpfile_name outfile i ≠ outfile.
Proof.
  unfold tmpfile_name. intros H.
  apply (f_equal String.length) in H. rewrite !string_length_app in H.
  simpl in H. lia.
Qed.

Lemma tmpfile_name_not_log outfile i :
  tmpfile_name outfile i ≠ log_name outfile.
Proof.
  unfold log_name, tmpfile_name. intros H.
  apply (inj (String.app outfile)), (inj (String.app ".")) in H.
  apply (f_equal String.length) in H. rewrite !string_length_app in H.
  simpl in H. lia.
Qed.

Lemma tmpfile_names_fresh outfile n :
  (outfile ∉ tmpfile_names outfile n)
  ∧ (log_name outfile ∉ tmpfile_names outfile n).
Proof.
  unfold tmpfile_names.
  split; intros (i & H & _)%list_elem_of_fmap; symmetry in H;
    [by apply tmpfile_name_not_outfile in H|by apply tmpfile_name_not_log in H].
Qed.

(** X7. The temporary files of a call are pairwise distinct, and none of
    them is the output file or the log file of the call. *)
Theorem tmpfile_names_distinct outfile n :
  NoDup (tmpfile_names outfile n)
  ∧ (outfile ∉ tmpfile_names outfile n)
  ∧ (log_name outfile ∉ tmpfile_names outfile n).
Proof.
  split; [|apply tmpfile_names_fresh].
  unfold tmpfile_names. apply NoDup_fmap_2; [|apply NoDup_seq].
  intros i j. apply tmpfile_name_inj.
Qed.

Section PipelineMore.

Variable wget_fails : string → bool.
Variable resolve_name : pyval → result postprocessor.

(** *** The lookup *)

Lemma build_lookup_spec (refs : list block)
    (d0 d : gmap (string * string) block) :
  build_lookup refs d0 = Ok d →
  (∀ b, b ∈ refs → d0 !! block_key b = None)
  ∧ NoDup (block_key <$> refs)
  ∧ ∀ k b, d !! k = Some b ↔ d0 !! k = Some b ∨ (b ∈ refs ∧ block_key b = k).
Proof.
  revert d0. induction refs as [|b0 refs IH]; intros d0; simpl.
  - intros [= ->]. split; [|split].
    + intros b Hb. by apply elem_of_nil in Hb.
    + constructor.
    + intros k b. split; [by left|]. intros [?|[Hb _]]; [done|].
      by apply elem_of_nil in Hb.
  - destruct (decide _) as [|Hnone]; [done|].
    apply eq_None_not_Some in Hnone.
    intros (Hfresh & Hnodup & Hd)%IH. fold (block_key b0) in *.
    split; [|split].
    + intros b [->|Hb]%elem_of_cons; [done|].
      specialize (Hfresh b Hb). apply lookup_insert_None in Hfresh. tauto.
    + constructor; [|done].
      intros (b & Hkey & Hb)%list_elem_of_fmap.
      specialize (Hfresh b Hb). rewrite <- Hkey in Hfresh.
      by rewrite lookup_insert_eq in Hfresh.
    + intros k b. rewrite Hd, lookup_insert_Some, elem_of_cons. split.
      * intros [[[<- <-]|[_ ?]]|[? ?]]; [right|by left|right]; by auto.
      * intros [H0|[[->|Hb] <-]].
        -- left. right. split; [|done]. intros <-. by rewrite Hnone in H0.
        -- left. by left.
        -- by right.
Qed.

Lemma build_lookup_total (refs : list block)
    (d0 : gmap (string * string) block) :
  NoDup (block_key <$> refs) →
  (∀ b, b ∈ refs → d0 !! block_key b = None) →
  ∃ d, build_lookup refs d0 = Ok d.
Proof.
  revert d0. induction refs as [|b0 refs IH]; intros d0 Hnodup Hfresh; simpl.
  - by eexists.
  - apply NoDup_cons in Hnodup as [Hnotin Hnodup].
    fold (block_key b0). rewrite decide_False.
    + apply IH; [done|]. intros b Hb. rewrite lookup_insert_ne.
      * apply Hfresh. by right.
      * intros Heq. apply Hnotin. rewrite Heq. by apply list_elem_of_fmap_2.
    + rewrite Hfresh; [by intros []|left].
Qed.

(** X8. The lookup is built exactly when no two blocks have the same
    assembly and fill-in tag; it then maps a pair to a block exactly when
    the block is in the configuration under that assembly and fill-in
    tag. *)
Theorem lookup_built_iff (refs : list block) :
  ((∃ d, build_lookup refs ∅ = Ok d) ↔ NoDup (block_key <$> refs))
  ∧ ∀ d k b, build_lookup refs ∅ = Ok d →
             d !! k = Some b ↔ b ∈ refs ∧ block_key b = k.
Proof.
  split; [split|].
  - intros [d H]. by apply build_lookup_spec in H as (_ & ? & _).
  - intros H. apply build_lookup_total; [done|]. intros. apply lookup_empty.
  - intros d k b (_ & _ & H)%build_lookup_spec. rewrite H, lookup_empty.
    naive_solver.
Qed.

(** *** Downloading *)

Lemma download_all_ok outfile (jobs : list (string * string)) (fs : FS) :
  Forall (λ job, wget_fails job.1 = false) jobs →
  download_all wget_fails outfile jobs fs
  = (Ok (), list_to_set (jobs.*2) ∪ log_files outfile (length jobs) ∪ fs).
Proof.
  intros Hok. revert fs.
  induction Hok as [|[url tmp] jobs Hurl _ IH]; intros fs; simpl.
  - unfold ret, log_files. simpl. f_equal. set_solver.
  - unfold bind, shell. simpl in Hurl. rewrite Hurl. rewrite IH.
    f_equal. unfold log_files, log_name. simpl.
    destruct (decide (length jobs = 0)); set_solver.
Qed.

Lemma download_all_fail outfile (jobs : list (string * string)) (fs : FS)
    i url tmp :
  jobs !! i = Some (url, tmp) →
  wget_fails url = true →
  Forall (λ job, wget_fails job.1 = false) (take i jobs) →
  download_all wget_fails outfile jobs fs
  = (Raise (CalledProcessError (Wget url tmp (log_name outfile))),
     list_to_set ((take (S i) jobs).*2) ∪ {[log_name outfile]} ∪ fs).
Proof.
  revert jobs fs. induction i as [|i IH]; intros [|[url0 tmp0] jobs] fs;
    simpl; try done.
  - intros [= -> ->] Hfail _. unfold bind, shell. rewrite Hfail.
    unfold log_name. f_equal. set_solver.
  - intros Hi Hfail [Hurl Hok]%Forall_cons. simpl in Hurl.
    unfold bind, shell. rewrite Hurl. rewrite (IH _ _ Hi Hfail Hok).
    f_equal. unfold log_name. set_solver.
Qed.

Lemma jobs_of_urls outfile (urls : list string) :
  (zip urls (tmpfile_names outfile (length urls))).*1 = urls
  ∧ (zip urls (tmpfile_names outfile (length urls))).*2
    = tmpfile_names outfile (length urls)
  ∧ length (zip urls (tmpfile_names outfile (length urls))) = length urls.
Proof.
  assert (length (tmpfile_names outfile (length urls)) = length urls) as Hlen.
  { unfold tmpfile_names. by rewrite length_fmap, length_seq. }
  split; [|split].
  - apply fst_zip. lia.
  - apply snd_zip. lia.
  - rewrite length_zip_with. lia.
Qed.

Lemma fetch_all_ok outfile block (fs : FS) :
  Forall (λ url, wget_fails url = false) (url_list block) →
  download_all wget_fails outfile
    (zip (url_list block)
       (tmpfile_names outfile (length (url_list block)))) fs
  = (Ok (), tmpfile_set outfile (length (url_list block))
            ∪ log_files outfile (length (url_list block)) ∪ fs).
Proof.
  intros Hok.
  destruct (jobs_of_urls outfile (url_list block)) as (H1 & H2 & H3).
  rewrite download_all_ok.
  - by rewrite H2, H3.
  - apply Forall_fmap with (f := fst) (P := λ url, wget_fails url = false).
    by rewrite H1.
Qed.

Lemma take_tmpfile_names outfile (n m : nat) :
  (m ≤ n)%nat → take m (tmpfile_names outfile n) = tmpfile_names outfile m.
Proof.
  intros Hm. unfold tmpfile_names. rewrite <- fmap_take, take_seq.
  by rewrite Nat.min_l.
Qed.

(** X9. For an output file with a plain name, URLs that are single shell
    words and no file of the call there beforehand: a fetch whose [wget]
    ends with a non-zero status ends the call with the [CalledProcessError]
    of that command; the function is not called and nothing is removed, so
    the temporary files of the URLs up to the failing one and the log file
    are left, and those of later URLs are not created. *)
Theorem fetch_failure_aborts outfile block func args (fs : FS) i url :
  plain_call outfile block fs →
  url_list block !! i = Some url →
  wget_fails url = true →
  Forall (λ u, wget_fails u = false) (take i (url_list block)) →
  fetch_and_run wget_fails outfile block func args fs
  = (Raise (CalledProcessError
              (Wget url (tmpfile_name outfile i) (log_name outfile))),
     tmpfile_set outfile (S i) ∪ {[log_name outfile]} ∪ fs).
Proof.
  intros _ Hi Hfail Hok. unfold fetch_and_run, bind.
  destruct (jobs_of_urls outfile (url_list block)) as (H1 & H2 & H3).
  pose proof (lookup_lt_Some _ _ _ Hi) as Hlt.
  rewrite (download_all_fail outfile _ fs i url (tmpfile_name outfile i)).
  - rewrite fmap_take, H2, take_tmpfile_names by lia. done.
  - apply lookup_zip_with_Some. exists url, (tmpfile_name outfile i).
    split; [done|]. split; [done|]. unfold tmpfile_names.
    by rewrite list_lookup_fmap, lookup_seq_lt.
  - done.
  - apply Forall_fmap with (f := fst) (P := λ u, wget_fails u = false).
    by rewrite fmap_take, H1.
Qed.


(** X11. For an output file with a plain name, a URL that is a single
    shell word and no file of the call there beforehand: with no
    [postprocess] key, one URL and a fetch that succeeds, the call returns
    normally; afterwards the output file and the log file exist, the
    temporary file does not, and nothing else has changed. *)
Theorem default_moves_single_download outfile cfg assembly tag d block url
    (fs : FS) :
  plain_call outfile block fs →
  build_lookup (c_references cfg) ∅ = Ok d →
  relpath_check outfile cfg = Ok () →
  d !! (assembly, tag) = Some block →
  b_postprocess block = None →
  url_list block = [url] →
  wget_fails url = false →
  download_and_postprocess wget_fails resolve_name outfile cfg assembly tag fs
  = (Ok (), {[outfile]} ∪ {[log_name outfile]} ∪ fs)
  ∧ (tmpfile_name outfile 0 ∉ ({[outfile]} ∪ {[log_name outfile]} ∪ fs : FS)).
Proof.
  intros (_ & _ & Hfresh) Hd Hrel Hblock Hpp Hurls Hok.
  destruct Hfresh as (_ & _ & Htmp). rewrite Hurls in Htmp.
  unfold tmpfile_set in Htmp.
  rewrite (download_and_postprocess_eq _ _ _ _ _ _ d block
             (None, PTuple []) (default_postprocess wget_fails));
    [|done..|by rewrite Hpp|done].
  destruct (tmpfile_names_fresh outfile 1) as (Hout & Hlog).
  unfold fetch_and_run. rewrite Hurls.
  change (tmpfile_names outfile (length [url]))
    with [tmpfile_name outfile 0] in *.
  change (tmpfile_names outfile 1) with [tmpfile_name outfile 0] in Hout, Hlog.
  rewrite list_elem_of_singleton in Hout, Hlog.
  cbn [zip zip_with download_all star_args snd cleanup].
  unfold bind, lift, default_postprocess, shell, ret, path_exists.
  rewrite Hok.
  change (outfile +:+ ".log") with (log_name outfile).
  revert Hout Hlog Htmp.
  generalize (tmpfile_name outfile 0), (log_name outfile).
  intros tmp log ? ? ?.
  rewrite decide_True by set_solver.
  rewrite bool_decide_eq_false_2 by set_solver.
  split; [f_equal|]; set_solver.
Qed.

(** X12. For an output file with a plain name, URLs that are single shell
    words and no file of the call there beforehand (so that the output path
    is not a directory): with no [postprocess] key and a number of URLs
    other than one, the [mv] of the default function fails once the fetches
    have succeeded; the call raises its [CalledProcessError], and the
    temporary files and the log are left. *)
Theorem default_needs_single_download outfile cfg assembly tag d block
    (fs : FS) :
  plain_call outfile block fs →
  build_lookup (c_references cfg) ∅ = Ok d →
  relpath_check outfile cfg = Ok () →
  d !! (assembly, tag) = Some block →
  b_postprocess block = None →
  length (url_list block) ≠ 1 →
  Forall (λ u, wget_fails u = false) (url_list block) →
  download_and_postprocess wget_fails resolve_name outfile cfg assembly tag fs
  = (Raise (CalledProcessError
              (Mv (tmpfile_names outfile (length (url_list block))) outfile)),
     tmpfile_set outfile (length (url_list block))
     ∪ log_files outfile (length (url_list block)) ∪ fs).
Proof.
  intros _ Hd Hrel Hblock Hpp Hlen Hok.
  rewrite (download_and_postprocess_eq _ _ _ _ _ _ d block
             (None, PTuple []) (default_postprocess wget_fails));
    [|done..|by rewrite Hpp|done].
  unfold fetch_and_run, bind, lift. rewrite (fetch_all_ok _ _ _ Hok). simpl.
  unfold shell, tmpfile_names.
  destruct (length (url_list block)) as [|[|n]]; simpl; done.
Qed.

(** X13. For an output file with a plain name, URLs that are single shell
    words and no file of the call there beforehand: a [postprocess] mapping
    whose [args] is null or a number is found out only at the call of the
    function; the URLs are downloaded, the unpacking [*args] raises
    [TypeError], and the temporary files and the log are left. *)
Theorem args_not_iterable outfile cfg assembly tag d block kvs name func
    (fs : FS) :
  plain_call outfile block fs →
  build_lookup (c_references cfg) ∅ = Ok d →
  relpath_check outfile cfg = Ok () →
  d !! (assembly, tag) = Some block →
  b_postprocess block = Some (PDict kvs) →
  dict_get "function" kvs = Some name →
  resolve_name name = Ok func →
  Forall (λ u, wget_fails u = false) (url_list block) →
  (dict_get "args" kvs = Some PNone →
   download_and_postprocess wget_fails resolve_name outfile cfg assembly tag fs
   = (Raise (TypeError "Value after * must be an iterable, not NoneType"),
      tmpfile_set outfile (length (url_list block))
      ∪ log_files outfile (length (url_list block)) ∪ fs))
  ∧ (∀ z, dict_get "args" kvs = Some (PInt z) →
          download_and_postprocess wget_fails resolve_name
            outfile cfg assembly tag fs
          = (Raise (TypeError "Value after * must be an iterable, not int"),
             tmpfile_set outfile (length (url_list block))
             ∪ log_files outfile (length (url_list block)) ∪ fs)).
Proof.
  intros _ Hd Hrel Hblock Hpp Hname Hfunc Hok.
  split; [intros Hargs|intros z Hargs].
  - rewrite (download_and_postprocess_eq _ _ _ _ _ _ d block
               (Some name, PNone) func); [|done..| |done].
    + unfold fetch_and_run, bind, lift. by rewrite (fetch_all_ok _ _ _ Hok).
    + rewrite Hpp. unfold postprocess_spec. by rewrite Hname, Hargs.
  - rewrite (download_and_postprocess_eq _ _ _ _ _ _ d block
               (Some name, PInt z) func); [|done..| |done].
    + unfold fetch_and_run, bind, lift. by rewrite (fetch_all_ok _ _ _ Hok).
    + rewrite Hpp. unfold postprocess_spec. by rewrite Hname, Hargs.
Qed.

(** X14. For an output file with a plain name, URLs that are single shell
    words and no file of the call there beforehand: with [cat] as the
    postprocessing function, at least one URL and fetches that all
    succeed, the call returns normally; afterwards the output file and the
    log exist, no temporary file does, and nothing else has changed. *)
Theorem cat_concatenates_downloads outfile cfg assembly tag d block name
    (fs : FS) :
  plain_call outfile block fs →
  build_lookup (c_references cfg) ∅ = Ok d →
  relpath_check outfile cfg = Ok () →
  d !! (assembly, tag) = Some block →
  b_postprocess block = Some (PStr name) →
  resolve_name (PStr name) = Ok (cat wget_fails) →
  url_list block ≠ [] →
  Forall (λ u, wget_fails u = false) (url_list block) →
  download_and_postprocess wget_fails resolve_name outfile cfg assembly tag fs
  = (Ok (), {[outfile]} ∪ {[log_name outfile]} ∪ fs)
  ∧ tmpfile_set outfile (length (url_list block))
    ## ({[outfile]} ∪ {[log_name outfile]} ∪ fs : FS).
Proof.
  intros (_ & _ & _ & _ & Htmp) Hd Hrel Hblock Hpp Hfunc Hurls Hok.
  destruct (tmpfile_names_fresh outfile (length (url_list block)))
    as (Hout & Hlog).
  assert (log_files outfile (length (url_list block)) = {[log_name outfile]})
    as Hlogs.
  { unfold log_files. destruct (url_list block) as [|u us]; [done|].
    by destruct (decide _). }
  split.
  - rewrite (download_and_postprocess_eq _ _ _ _ _ _ d block
               (Some (PStr name), PTuple []) (cat wget_fails));
      [|done..|by rewrite Hpp|done].
    unfold fetch_and_run, bind, lift. rewrite (fetch_all_ok _ _ _ Hok). simpl.
    rewrite Hlogs. unfold cat, shell. rewrite decide_True.
    + rewrite cleanup_spec. f_equal. unfold tmpfile_set in *. set_solver.
    + apply Forall_forall. intros tmp Htmp'. unfold tmpfile_set. set_solver.
  - unfold tmpfile_set in *. set_solver.
Qed.

(** X15. Configuration errors are raised before anything is downloaded,
    in this order once the lookup is built: a configuration without
    [references_dir] raises [KeyError('references_dir')] and an empty
    output name [ValueError], whether or not the block exists; a missing
    [(assembly, tag)] raises the [KeyError] of the pair; a [postprocess]
    value that is a list or a number raises [UnboundLocalError].  The file
    system is untouched in each case. *)
Theorem configuration_errors_before_download outfile cfg assembly tag d
    (fs : FS) :
  build_lookup (c_references cfg) ∅ = Ok d →
  (c_references_dir cfg = None →
   download_and_postprocess wget_fails resolve_name outfile cfg assembly tag fs
   = (Raise (KeyError (PStr "references_dir")), fs))
  ∧ (is_Some (c_references_dir cfg) → outfile = "" →
     download_and_postprocess wget_fails resolve_name outfile cfg assembly tag fs
     = (Raise (ValueError "no path specified"), fs))
  ∧ (relpath_check outfile cfg = Ok () → d !! (assembly, tag) = None →
     download_and_postprocess wget_fails resolve_name outfile cfg assembly tag fs
     = (Raise (KeyError (PTuple [PStr assembly; PStr tag])), fs))
  ∧ (∀ block,
       relpath_check outfile cfg = Ok () →
       d !! (assembly, tag) = Some block →
       (∃ l, b_postprocess block = Some (PList l))
       ∨ (∃ z, b_postprocess block = Some (PInt z)) →
       download_and_postprocess wget_fails resolve_name
         outfile cfg assembly tag fs
       = (Raise (UnboundLocalError "name"), fs)).
Proof.
  intros Hd. unfold download_and_postprocess, bind, lift. rewrite Hd.
  split; [|split; [|split]].
  - intros Hnone. unfold relpath_check. by rewrite Hnone.
  - intros [rd Hrd] ->. unfold relpath_check. by rewrite Hrd.
  - intros -> ->. done.
  - intros block -> -> [[l ->]|[z ->]]; done.
Qed.

End PipelineMore.

(** * The lookup and the path table *)

Section LookupAndTable.

Variables bowtie2_suffix hisat2_suffix : string.

(** X16. The uniqueness check of the lookup is the stricter one: a
    configuration whose lookup is built, whose references directory is known
    and whose requested kinds are all known is accepted by
    [config_to_dict]. *)
Theorem unique_pairs_accepted environ cfg d :
  build_lookup (c_references cfg) ∅ = Ok d →
  is_Some (get_references_dir environ cfg) →
  (∀ b, b ∈ c_references cfg →
        kinds_known bowtie2_suffix hisat2_suffix b = true) →
  ∃ t, config_to_dict bowtie2_suffix hisat2_suffix environ cfg = Ok t.
Proof.
  intros Hd [rd Hrd] Hknown. unfold config_to_dict. rewrite Hrd.
  apply process_blocks_total; [done| |].
  - intros b _. unfold cell_of. by rewrite !lookup_empty.
  - intros i j bi bj Hij Hi Hj Hsame _.
    destruct (build_lookup_duplicate (c_references cfg) ∅ i j bi bj)
      as (b & _ & Hraise); [done..|].
    by rewrite Hd in Hraise.
Qed.

End LookupAndTable.

(** * Properties of [filter_fastas] *)

Lemma prefix_spec p s : String.prefix p s = true ↔ ∃ post, s = p +:+ post.
Proof.
  revert s. induction p as [|c p IH]; intros [|c' s]; simpl.
  - split; [by exists ""|done].
  - split; [by exists (String c' s)|done].
  - split; [done|by intros [post ?]].
  - destruct (ascii_dec c c') as [->|Hne].
    + rewrite IH. split; intros [post H]; exists post; [by rewrite H|].
      by injection H.
    + split; [done|]. intros [post H]. by injection H.
Qed.

Lemma str_contains_eq p s :
  str_contains p s
  = if String.prefix p s then true
    else match s with
         | EmptyString => false
         | String _ rest => str_contains p rest
         end.
Proof. by destruct s. Qed.

Lemma str_contains_spec p s :
  str_contains p s = true ↔ ∃ pre post, s = pre +:+ p +:+ post.
Proof.
  induction s as [|c s IH]; rewrite str_contains_eq.
  - destruct (String.prefix p "") eqn:Hp.
    + apply prefix_spec in Hp as [post Hp]. split; [|done].
      intros _. by exists "", post.
    + split; [done|]. intros (pre & post & H).
      destruct pre; [|done]. simpl in H.
      assert (String.prefix p "" = true) as Hp'
        by (apply prefix_spec; by exists post).
      by rewrite Hp in Hp'.
  - destruct (String.prefix p (String c s)) eqn:Hp.
    + apply prefix_spec in Hp as [post Hp]. split; [|done].
      intros _. by exists "", post.
    + rewrite IH. split.
      * intros (pre & post & ->). by exists (String c pre), post.
      * intros (pre & post & H). destruct pre as [|c' pre]; simpl in H.
        -- assert (String.prefix p (String c s) = true) as Hp'
             by (apply prefix_spec; by exists post).
           by rewrite Hp in Hp'.
        -- injection H as -> ->. by exists pre, post.
Qed.

Section FastaFilterFacts.

Variable parse_fasta : string → list seq_record.
Variable back_transcribe : string → string.

Lemma gen_records_filter parser pattern :
  gen_records back_transcribe parser pattern
  = yielded back_transcribe
      <$> filter (λ rec, str_contains pattern (rec_description rec) = true)
            parser.
Proof.
  induction parser as [|rec parser IH]; simpl; [done|].
  destruct (str_contains pattern (rec_description rec)) eqn:Hc; simpl.
  - rewrite filter_cons_True by done. simpl. by rewrite IH.
  - rewrite filter_cons_False by (by rewrite Hc). done.
Qed.

Lemma gen_records_yields parser pattern out :
  out ∈ gen_records back_transcribe parser pattern
  ↔ ∃ rec pre post,
      rec ∈ parser
      ∧ rec_description rec = pre +:+ pattern +:+ post
      ∧ out = yielded back_transcribe rec.
Proof.
  rewrite gen_records_filter, list_elem_of_fmap. split.
  - intros (rec & -> & Hrec). apply list_elem_of_filter in Hrec as [Hc Hrec].
    apply str_contains_spec in Hc as (pre & post & Hc).
    by exists rec, pre, post.
  - intros (rec & pre & post & Hrec & Hc & ->).
    exists rec. split; [done|]. apply list_elem_of_filter. split; [|done].
    apply str_contains_spec. by exists pre, post.
Qed.

(** X17. [gen] yields the records of the files in the order of the files and,
    within a file, of its records, keeping those whose description contains
    the pattern; each is yielded with its sequence back-transcribed and its
    description reset to its name. *)
Theorem gen_filters_in_order tmpfiles pattern :
  gen parse_fasta back_transcribe tmpfiles pattern
  = yielded back_transcribe
      <$> filter (λ rec, str_contains pattern (rec_description rec) = true)
            (tmpfiles ≫= parse_fasta).
Proof.
  induction tmpfiles as [|tmp tmpfiles IH]; simpl; [done|].
  by rewrite filter_app, fmap_app, IH, gen_records_filter.
Qed.

(** X18. A record is yielded exactly when it comes from a record of one of
    the files whose description is some text, the pattern, some text; a
    record without the pattern in its description is never yielded. *)
Theorem gen_yields_matching tmpfiles pattern out :
  out ∈ gen parse_fasta back_transcribe tmpfiles pattern
  ↔ ∃ tmp rec pre post,
      tmp ∈ tmpfiles ∧ rec ∈ parse_fasta tmp
      ∧ rec_description rec = pre +:+ pattern +:+ post
      ∧ out = yielded back_transcribe rec.
Proof.
  induction tmpfiles as [|tmp0 tmpfiles IH]; simpl.
  - split; [by intros ?%elem_of_nil|].
    by intros (tmp & _ & _ & _ & ?%elem_of_nil & _).
  - rewrite elem_of_app, IH, gen_records_yields. split.
    + intros [(rec & pre & post & Hrec & Hc & ->)
             |(tmp & rec & pre & post & Htmp & Hrest)].
      * exists tmp0, rec, pre, post. split; [left|done].
      * exists tmp, rec, pre, post. split; [by right|done].
    + intros (tmp & rec & pre & post & [->|Htmp]%elem_of_cons & Hrest).
      * left. by exists rec, pre, post.
      * right. by exists tmp, rec, pre, post.
Qed.

(** X19. With the empty pattern nothing is filtered out: [gen] yields as
    many records as the files hold. *)
Theorem gen_empty_pattern_keeps_all tmpfiles :
  length (gen parse_fasta back_transcribe tmpfiles "")
  = length (tmpfiles ≫= parse_fasta).
Proof.
  induction tmpfiles as [|tmp tmpfiles IH]; simpl; [done|].
  rewrite !length_app, IH. f_equal.
  induction (parse_fasta tmp) as [|rec l IHl]; simpl; [done|].
  rewrite (proj2 (str_contains_spec "" (rec_description rec)));
    [simpl; by rewrite IHl|].
  by exists "", (rec_description rec).
Qed.

End FastaFilterFacts.

(** * Instances *)

Lemma lookup_built_iff_witness :
  ({[ ("dm6", "default") := dm6_plain ]} : gmap (string * string) block)
    !! ("dm6", "default") = Some dm6_plain
  ↔ dm6_plain ∈ [dm6_plain] ∧ block_key dm6_plain = ("dm6", "default").
Proof.
  apply (proj2 (lookup_built_iff [dm6_plain])). vm_compute. reflexivity.
Defined.

Lemma plain_call_here (b : block) :
  Forall (λ url, url_word url = true) (url_list b) →
  plain_call dm6_here b ∅.
Proof.
  intros Hurls. split; [reflexivity|]. split; [done|].
  split; [apply not_elem_of_empty|].
  split; [apply not_elem_of_empty|apply disjoint_empty_r].
Defined.

Lemma fetch_failure_aborts_witness :
  fetch_and_run second_fails dm6_here dm6_two_urls (cat second_fails)
    (PTuple []) ∅
  = (Raise (CalledProcessError
              (Wget "http://example.org/dm6.2.fa.gz"
                 (tmpfile_name dm6_here 1) (log_name dm6_here))),
     tmpfile_set dm6_here 2 ∪ {[log_name dm6_here]} ∪ ∅).
Proof.
  apply (fetch_failure_aborts second_fails dm6_here dm6_two_urls
           (cat second_fails) (PTuple []) ∅ 1
           "http://example.org/dm6.2.fa.gz").
  - apply plain_call_here. repeat constructor.
  - reflexivity.
  - reflexivity.
  - repeat constructor.
Defined.


Lemma default_moves_single_download_witness :
  download_and_postprocess all_fetched example_registry dm6_here
    (config_of dm6_plain) "dm6" "default" ∅
  = (Ok (), {[dm6_here]} ∪ {[log_name dm6_here]} ∪ ∅)
  ∧ (tmpfile_name dm6_here 0
     ∉ ({[dm6_here]} ∪ {[log_name dm6_here]} ∪ ∅ : FS)).
Proof.
  apply (default_moves_single_download all_fetched example_registry dm6_here
           (config_of dm6_plain) "dm6" "default"
           {[ ("dm6", "default") := dm6_plain ]} dm6_plain
           "http://example.org/dm6.fa.gz" ∅).
  - apply plain_call_here. repeat constructor.
  - vm_compute. reflexivity.
  - reflexivity.
  - vm_compute. reflexivity.
  - reflexivity.
  - reflexivity.
  - reflexivity.
Defined.

Lemma default_needs_single_download_witness :
  download_and_postprocess all_fetched example_registry dm6_here
    (config_of dm6_two_urls) "dm6" "default" ∅
  = (Raise (CalledProcessError
              (Mv (tmpfile_names dm6_here (length (url_list dm6_two_urls)))
                 dm6_here)),
     tmpfile_set dm6_here (length (url_list dm6_two_urls))
     ∪ log_files dm6_here (length (url_list dm6_two_urls)) ∪ ∅).
Proof.
  apply (default_needs_single_download all_fetched example_registry dm6_here
           (config_of dm6_two_urls) "dm6" "default"
           {[ ("dm6", "default") := dm6_two_urls ]} dm6_two_urls ∅).
  - apply plain_call_here. repeat constructor.
  - vm_compute. reflexivity.
  - reflexivity.
  - vm_compute. reflexivity.
  - reflexivity.
  - simpl. lia.
  - repeat constructor.
Defined.

Lemma args_not_iterable_witness :
  download_and_postprocess all_fetched example_registry dm6_here
    (config_of (with_postprocess (PDict args_null) dm6_plain))
    "dm6" "default" ∅
  = (Raise (TypeError "Value after * must be an iterable, not NoneType"),
     tmpfile_set dm6_here 1 ∪ log_files dm6_here 1 ∪ ∅).
Proof.
  refine (proj1 (args_not_iterable all_fetched example_registry dm6_here
           (config_of (with_postprocess (PDict args_null) dm6_plain))
           "dm6" "default"
           {[ ("dm6", "default") :=
                with_postprocess (PDict args_null) dm6_plain ]}
           (with_postprocess (PDict args_null) dm6_plain)
           args_null (PStr "lib.postprocess.write") writing_postprocess ∅
           _ _ _ _ _ _ _ _) _).
  - apply plain_call_here. repeat constructor.
  - vm_compute. reflexivity.
  - reflexivity.
  - vm_compute. reflexivity.
  - reflexivity.
  - reflexivity.
  - reflexivity.
  - repeat constructor.
  - reflexivity.
Defined.

Lemma cat_concatenates_downloads_witness :
  download_and_postprocess all_fetched common_registry dm6_here
    (config_of (with_postprocess (PStr "lib.common.cat") dm6_two_urls))
    "dm6" "default" ∅
  = (Ok (), {[dm6_here]} ∪ {[log_name dm6_here]} ∪ ∅)
  ∧ tmpfile_set dm6_here 2 ## ({[dm6_here]} ∪ {[log_name dm6_here]} ∪ ∅ : FS).
Proof.
  apply (cat_concatenates_downloads all_fetched common_registry dm6_here
           (config_of (with_postprocess (PStr "lib.common.cat") dm6_two_urls))
           "dm6" "default"
           {[ ("dm6", "default") :=
                with_postprocess (PStr "lib.common.cat") dm6_two_urls ]}
           (with_postprocess (PStr "lib.common.cat") dm6_two_urls)
           "lib.common.cat" ∅).
  - apply (plain_call_here
             (with_postprocess (PStr "lib.common.cat") dm6_two_urls)).
    repeat constructor.
  - vm_compute. reflexivity.
  - reflexivity.
  - vm_compute. reflexivity.
  - reflexivity.
  - reflexivity.
  - discriminate.
  - repeat constructor.
Defined.

Lemma configuration_errors_before_download_witness :
  download_and_postprocess all_fetched example_registry dm6_out
    dm6_nodir "dm6" "r6-11" ∅
  = (Raise (KeyError (PStr "references_dir")), ∅)
  ∧ download_and_postprocess all_fetched example_registry dm6_out
      (config_of dm6_plain) "hg38" "default" ∅
    = (Raise (KeyError (PTuple [PStr "hg38"; PStr "default"])), ∅)
  ∧ download_and_postprocess all_fetched example_registry dm6_out
      (config_of (with_postprocess (PList [PStr "FOO"]) dm6_plain))
      "dm6" "default" ∅
    = (Raise (UnboundLocalError "name"), ∅).
Proof.
  split; [|split].
  - refine (proj1 (configuration_errors_before_download all_fetched
                     example_registry dm6_out dm6_nodir "dm6" "r6-11"
                     {[ ("dm6", "r6-11") := dm6_r6_11 ]} ∅ _) _);
      vm_compute; reflexivity.
  - refine (proj1 (proj2 (proj2
              (configuration_errors_before_download all_fetched
                 example_registry dm6_out (config_of dm6_plain)
                 "hg38" "default"
                 {[ ("dm6", "default") := dm6_plain ]} ∅ _))) _ _);
      vm_compute; reflexivity.
  - refine (proj2 (proj2 (proj2
              (configuration_errors_before_download all_fetched
                 example_registry dm6_out
                 (config_of (with_postprocess (PList [PStr "FOO"]) dm6_plain))
                 "dm6" "default"
                 {[ ("dm6", "default") :=
                      with_postprocess (PList [PStr "FOO"]) dm6_plain ]}
                 ∅ _)))
              (with_postprocess (PList [PStr "FOO"]) dm6_plain) _ _ _).
    + vm_compute. reflexivity.
    + reflexivity.
    + vm_compute. reflexivity.
    + left. by exists [PStr "FOO"].
Defined.

Lemma unique_pairs_accepted_witness :
  ∃ t, config_to_dict doc_bowtie2_suffix doc_hisat2_suffix ∅ dm6_config = Ok t.
Proof.
  apply (unique_pairs_accepted doc_bowtie2_suffix doc_hisat2_suffix
           ∅ dm6_config {[ ("dm6", "r6-11") := dm6_r6_11 ]}).
  - vm_compute. reflexivity.
  - exists "/data". reflexivity.
  - intros b Hb. change (b ∈ [dm6_r6_11]) in Hb.
    apply list_elem_of_singleton in Hb as ->. reflexivity.
Defined.
